(** * Streaming tool-call chat: the notebook's glue code

    A shallow embedding of the two code cells of
    [04-tool-use/code_samples/04-semantic-kernel-tool.ipynb] (the batch
    driver [main], the interactive [process_user_input] and [on_submit],
    the [DestinationsPlugin]) and of the same code as it is quoted in
    [04-tool-use/interactive-chat-explanation.md].

    Python [str] values are sequences of Unicode code points and are
    modelled as lists of code points; the external framework (the agent,
    its thread objects, the [json] module) stays abstract.  The stream an
    [async for] consumes is the finite list of the responses it yields
    before it ends. *)

From Stdlib Require Import List NArith Bool Ascii String Lia.
Import ListNotations.

Set Implicit Arguments.

(** ** Python strings *)

Module Py.

Definition str := list N.

(** A source literal, character by character. *)
Definition lit (s : string) : str :=
  List.map N_of_ascii (list_ascii_of_string s).

(** [chr(10)] *)
Definition chr10 : str := [10%N].

(** The code points [str.strip()] removes when called without argument
    (CPython's [Py_UNICODE_ISSPACE]). *)
Definition isspace (c : N) : bool :=
  ((9 <=? c) && (c <=? 13) || (28 <=? c) && (c <=? 32)
   || (c =? 133) || (c =? 160) || (c =? 5760)
   || (8192 <=? c) && (c <=? 8202)
   || (c =? 8232) || (c =? 8233) || (c =? 8239) || (c =? 8287)
   || (c =? 12288))%N.

Fixpoint lstrip (s : str) : str :=
  match s with
  | c :: s' => if isspace c then lstrip s' else s
  | [] => []
  end.

Definition rstrip (s : str) : str := rev (lstrip (rev s)).

Definition strip (s : str) : str := rstrip (lstrip s).

(** [sep.join(parts)] *)
Fixpoint join (sep : str) (parts : list str) : str :=
  match parts with
  | [] => []
  | [p] => p
  | p :: rest => p ++ sep ++ join sep rest
  end.

(** Truth value of a [str | None] attribute: [None] and the empty
    string are falsy. *)
Definition truthy (o : option str) : bool :=
  match o with
  | Some (_ :: _) => true
  | _ => false
  end.

(** Truth value of a [str]. *)
Definition nonempty (s : str) : bool :=
  match s with
  | [] => false
  | _ :: _ => true
  end.

(** Truth value of a list. *)
Definition nonempty_list {A} (l : list A) : bool :=
  match l with
  | [] => false
  | _ :: _ => true
  end.

(** [s.split(sep)] for a separator of one character. *)
Fixpoint split_on (sep : N) (s : str) : list str :=
  match s with
  | [] => [[]]
  | c :: s' =>
      if (c =? sep)%N then [] :: split_on sep s'
      else match split_on sep s' with
           | field :: fields => (c :: field) :: fields
           | [] => [[c]]
           end
  end.

(** The lines of a text that are not blank, without their margins. *)
Definition entries (s : str) : list str :=
  filter nonempty (List.map strip (split_on 10 s)).

(** The part of an entry before the first [sep], without blanks. *)
Definition head_field (sep : N) (entry : str) : str :=
  strip (hd [] (split_on sep entry)).

(** Exceptions deriving from [Exception], the ones an
    [except Exception] clause handles. *)
Inductive Exception : Type :=
| JSONDecodeError (msg : str)
| RecursionError
| TypeError (msg : str)
| ValueError (msg : str).

(** Outcome of evaluating a Python expression or block. *)
Inductive Exc (A : Type) : Type :=
| Ok (a : A)
| Raise (e : Exception).
Arguments Ok {A} a.
Arguments Raise {A} e.

Definition bind {A B} (m : Exc A) (k : A -> Exc B) : Exc B :=
  match m with
  | Ok a => k a
  | Raise e => Raise e
  end.

(** [try: body / except Exception: handler] *)
Definition try_except {A} (body : Exc A) (handler : Exception -> Exc A)
  : Exc A :=
  match body with
  | Ok a => Ok a
  | Raise e => handler e
  end.

End Py.

Import Py.

Declare Scope py_scope.
Delimit Scope py_scope with py.
Notation "x <- m ;; k" := (Py.bind m (fun x => k))
  (at level 61, m at next level, right associativity) : py_scope.
Open Scope py_scope.

(** ** The plugin *)

Module DestinationsPlugin.

Definition indent : str := lit "        ".

(** One line of a triple-quoted literal written inside a method body:
    the indentation, the text, the line break. *)
Definition line (s : string) : str := indent ++ lit s ++ chr10.

Definition get_destinations (self : unit) : str :=
  chr10
  ++ line "Barcelona, Spain"
  ++ line "Paris, France"
  ++ line "Berlin, Germany"
  ++ line "Tokyo, Japan"
  ++ line "New York, USA"
  ++ indent.

Definition get_availability (self : unit) (destination : str) : str :=
  chr10
  ++ line "Barcelona - Unavailable"
  ++ line "Paris - Available"
  ++ line "Berlin - Available"
  ++ line "Tokyo - Unavailable"
  ++ line "New York - Available"
  ++ indent.

(** The methods decorated with [@kernel_function], in class order: name
    and number of parameters besides [self]. *)
Definition kernel_functions : list (str * nat) :=
  [ (lit "get_destinations", 0); (lit "get_availability", 1) ].

End DestinationsPlugin.

(** ** Streamed content and the per-turn collectors *)

(** [item.arguments] of a [FunctionCallContent]: [str | Mapping | None]. *)
Inductive Arguments : Type :=
| ArgsStr (s : str)
| ArgsMapping
| ArgsNone.

(** The items of a streamed response.  [result] of a
    [FunctionResultContent] is the text the f-string puts for
    [{item.result}]; [OtherContent] is any item of another class. *)
Inductive Item : Type :=
| FunctionCallContent (function_name : option str) (arguments : Arguments)
| FunctionResultContent (result : str)
| StreamingTextContent (text : option str)
| OtherContent.

(** The variables both cells initialise before the [async for]. *)
Record Collectors : Type := {
  full_response : list str;
  function_calls : list str;
  current_function_name : option str;
  argument_buffer : str
}.

Definition fresh : Collectors :=
  {| full_response := [];
     function_calls := [];
     current_function_name := None;
     argument_buffer := [] |}.

(** [f"Calling function: {current_function_name}({formatted_args})"] *)
Definition calling_line (name formatted_args : str) : str :=
  lit "Calling function: " ++ name ++ lit "(" ++ formatted_args ++ lit ")".

(** [f"\nFunction Result:\n\n{item.result}"] *)
Definition result_line (result : str) : str :=
  chr10 ++ lit "Function Result:" ++ chr10 ++ chr10 ++ result.

(** The text an f-string puts for a [str | None] value. *)
Definition fmt_opt (o : option str) : str :=
  match o with
  | Some s => s
  | None => lit "None"
  end.

(** ** HTML pieces *)

Definition user_block (user_input : str) : str :=
  lit "<div style='margin-bottom:10px'>"
  ++ lit "<div style='font-weight:bold'>User:</div>"
  ++ lit "<div style='margin-left:20px'>" ++ user_input ++ lit "</div></div>".

Definition calls_block (function_calls : list str) : str :=
  lit "<div style='margin-bottom:10px'>"
  ++ lit "<details>"
  ++ lit "<summary style='cursor:pointer; font-weight:bold; color:#0066cc;'>Function Calls (click to expand)</summary>"
  ++ lit "<div style='margin:10px; padding:10px; background-color:#f8f8f8; "
  ++ lit "border:1px solid #ddd; border-radius:4px; white-space:pre-wrap; font-size:14px; color:#333;'>"
  ++ join chr10 function_calls
  ++ lit "</div></details></div>".

Definition hr : str := lit "<hr>".

Definition response_block (shown_name : str) (full_response : list str) : str :=
  lit "<div style='margin-bottom:20px'>"
  ++ lit "<div style='font-weight:bold'>" ++ shown_name ++ lit ":</div>"
  ++ lit "<div style='margin-left:20px; white-space:pre-wrap'>"
  ++ join [] full_response ++ lit "</div></div>" ++ hr.

(** The two [html_output += ...] statements after the stream is
    exhausted. *)
Definition finish_html (html_output : str) (c : Collectors) (shown_name : str)
  : str :=
  let html_output :=
    if nonempty_list (function_calls c)
    then html_output ++ calls_block (function_calls c)
    else html_output in
  html_output ++ response_block shown_name (full_response c).

(** One element of the async stream [agent.invoke_stream(...)], for
    the framework's type of thread objects. *)
Record AgentResponse (Thread : Type) : Type := {
  response_thread : Thread;
  response_name : option str;
  response_items : list Item
}.

(** ** A small JSON codec to run the model on

    Accepts the empty object, with any JSON blanks between the braces,
    and rejects every other text. *)

Inductive ToyJSON : Type := EmptyObject.

Definition json_blank (c : N) : bool :=
  ((c =? 32) || (c =? 9) || (c =? 10) || (c =? 13))%N.

Definition toy_loads (s : str) : Exc ToyJSON :=
  match s with
  | 123%N :: rest =>
      match rev rest with
      | 125%N :: inner =>
          if forallb json_blank inner then Ok EmptyObject
          else Raise (JSONDecodeError (lit "Expecting property name"))
      | _ => Raise (JSONDecodeError (lit "Expecting property name"))
      end
  | _ => Raise (JSONDecodeError (lit "Expecting value"))
  end.

Definition toy_dumps (v : ToyJSON) : Exc str := Ok (lit "{}").

(** ** A small agent to run the model on

    Threads are numbered.  On a new conversation the agent streams a call
    of [get_availability] in three chunks, its result, and a sentence; on
    a running conversation it streams a sentence only. *)

Definition toy_call : list Item :=
  [ FunctionCallContent (Some (lit "get_availability")) (ArgsStr (lit " {"));
    FunctionCallContent None ArgsNone;
    FunctionCallContent None (ArgsStr (lit " } ")) ].

Definition toy_answer : list Item :=
  [ StreamingTextContent (Some (lit "Paris is "));
    StreamingTextContent (Some []);
    StreamingTextContent (Some (lit "available.")) ].

Definition toy_stream : list (AgentResponse nat) :=
  [ {| response_thread := 1;
       response_name := Some (lit "TravelAgent");
       response_items := toy_call |};
    {| response_thread := 2;
       response_name := Some (lit "TravelAgent");
       response_items :=
         FunctionResultContent (lit "Paris - Available") :: toy_answer |} ].

Definition toy_agent (messages : str) (thread : option nat)
  : list (AgentResponse nat) :=
  match thread with
  | None => toy_stream
  | Some n =>
      [ {| response_thread := S n;
           response_name := None;
           response_items := [StreamingTextContent (Some messages)] |} ]
  end.

(** Collectors with a name pending and a buffer that is not JSON. *)
Definition toy_pending : Collectors :=
  {| full_response := [];
     function_calls := [];
     current_function_name := Some (lit "get_availability");
     argument_buffer := lit "  {destination: Par " |}.

(** Collectors with buffered text and no name. *)
Definition toy_idle : Collectors :=
  {| full_response := [];
     function_calls := [];
     current_function_name := None;
     argument_buffer := lit " {" |}.

(** ** What the stream says, read off the list of items

    These definitions do not run the cells' code; the theorems compare
    them with what the code collects. *)

(** Every item of a turn, in the order the two nested loops visit them. *)
Definition items_of {Thread} (responses : list (AgentResponse Thread))
  : list Item :=
  flat_map (fun response => response_items response) responses.

(** The string-typed [arguments] of the [FunctionCallContent] items,
    concatenated in order. *)
Fixpoint string_arguments (items : list Item) : str :=
  match items with
  | [] => []
  | FunctionCallContent _ (ArgsStr s) :: rest => s ++ string_arguments rest
  | _ :: rest => string_arguments rest
  end.

(** The non-empty texts of the [StreamingTextContent] items, in order. *)
Fixpoint streamed_texts (items : list Item) : list str :=
  match items with
  | [] => []
  | StreamingTextContent (Some (ch :: text)) :: rest =>
      (ch :: text) :: streamed_texts rest
  | _ :: rest => streamed_texts rest
  end.

Definition is_result (item : Item) : bool :=
  match item with
  | FunctionResultContent _ => true
  | _ => false
  end.

(** Whether a function name is pending after [items], given whether one
    was pending before: a named call sets it, a result clears it. *)
Fixpoint pending_after (pending : bool) (items : list Item) : bool :=
  match items with
  | [] => pending
  | FunctionCallContent function_name _ :: rest =>
      pending_after (pending || truthy function_name) rest
  | FunctionResultContent _ :: rest => pending_after false rest
  | _ :: rest => pending_after pending rest
  end.

(** The items received since the last reconstructed call, a result that
    arrives while a name is pending; [seen] are those received before
    [items]. *)
Fixpoint since_last_call (pending : bool) (seen items : list Item)
  : list Item :=
  match items with
  | [] => seen
  | FunctionCallContent function_name arguments :: rest =>
      since_last_call (pending || truthy function_name)
                      (seen ++ [FunctionCallContent function_name arguments])
                      rest
  | FunctionResultContent result :: rest =>
      if pending then since_last_call false [] rest
      else since_last_call false (seen ++ [FunctionResultContent result]) rest
  | item :: rest => since_last_call pending (seen ++ [item]) rest
  end.

(** No call is reconstructed within [items]: no result arrives while a
    name is pending. *)
Fixpoint quiet (pending : bool) (items : list Item) : bool :=
  match items with
  | [] => true
  | FunctionCallContent function_name _ :: rest =>
      quiet (pending || truthy function_name) rest
  | FunctionResultContent _ :: rest => negb pending && quiet false rest
  | _ :: rest => quiet pending rest
  end.

(** The lines the [FunctionResultContent] items contribute. *)
Fixpoint result_lines (items : list Item) : list str :=
  match items with
  | [] => []
  | FunctionResultContent result :: rest =>
      result_line result :: result_lines rest
  | _ :: rest => result_lines rest
  end.

(** The five destinations of the plugin. *)
Definition five_destinations : list str :=
  [ lit "Barcelona"; lit "Paris"; lit "Berlin"; lit "Tokyo"; lit "New York" ].

(** A code point [str.strip()] keeps. *)
Definition nonspace (c : N) : bool := negb (isspace c).

(** The result texts of the [FunctionResultContent] items, in order. *)
Fixpoint results_of (items : list Item) : list str :=
  match items with
  | [] => []
  | FunctionResultContent result :: rest => result :: results_of rest
  | _ :: rest => results_of rest
  end.

(** The lines one function result brings: its own line, after the line
    of the call reconstructed with it, if any. *)
Definition group_lines (g : option (str * str) * str) : list str :=
  match g with
  | (Some (name, args), result) =>
      [calling_line name args; result_line result]
  | (None, result) => [result_line result]
  end.

(** The last non-empty [function_name] among the [FunctionCallContent]
    items, or [name] when there is none. *)
Fixpoint last_named (name : option str) (items : list Item) : option str :=
  match items with
  | [] => name
  | FunctionCallContent function_name _ :: rest =>
      last_named (if truthy function_name then function_name else name) rest
  | _ :: rest => last_named name rest
  end.

(** A stream with a call and no result. *)
Definition toy_unanswered : list (AgentResponse nat) :=
  [ {| response_thread := 7;
       response_name := Some (lit "TravelAgent");
       response_items := toy_call ++ toy_answer |} ].

(** An agent that echoes the message under its own name. *)
Definition toy_echo (messages : str) (thread : option nat)
  : list (AgentResponse nat) :=
  [ {| response_thread := match thread with Some n => S n | None => 1 end;
       response_name := Some (lit "TravelAgent");
       response_items := [StreamingTextContent (Some messages)] |} ].

(** Two named calls in a row. *)
Definition toy_two_names : list Item :=
  [ FunctionCallContent (Some (lit "get_destinations")) (ArgsStr (lit "{"));
    FunctionCallContent (Some (lit "get_availability")) (ArgsStr (lit " }")) ].

(** Collectors with a name pending and blanks in the buffer. *)
Definition toy_blank : Collectors :=
  {| full_response := [];
     function_calls := [];
     current_function_name := Some (lit "get_destinations");
     argument_buffer := [32; 10; 9]%N |}.

Section Chat.

(** The framework's thread objects, and the [json] module. *)
Variable Thread : Type.
Variable JSON : Type.
Variable json_loads : str -> Exc JSON.
Variable json_dumps : JSON -> Exc str.

(** The agent: its [name] attribute, if it has one, and the responses
    it streams for a message sent on a thread. *)
Variable agent_name_attr : option str.
Variable invoke_stream : str -> option Thread -> list (AgentResponse Thread).

(** *** The body of [for item in content_items] *)

(** The [try]/[except Exception: pass] around the JSON round trip. *)
Definition format_args (formatted_args : str) : Exc str :=
  try_except
    (parsed_args <- json_loads formatted_args ;;
     formatted_args <- json_dumps parsed_args ;;
     Ok formatted_args)
    (fun _ => Ok formatted_args).

Definition process_item (c : Collectors) (item : Item) : Exc Collectors :=
  match item with
  | FunctionCallContent function_name arguments =>
      let c :=
        if truthy function_name
        then {| full_response := full_response c;
                function_calls := function_calls c;
                current_function_name := function_name;
                argument_buffer := argument_buffer c |}
        else c in
      match arguments with
      | ArgsStr s =>
          Ok {| full_response := full_response c;
                function_calls := function_calls c;
                current_function_name := current_function_name c;
                argument_buffer := argument_buffer c ++ s |}
      | _ => Ok c
      end
  | FunctionResultContent result =>
      c <- (if truthy (current_function_name c)
            then
              let formatted_args := strip (argument_buffer c) in
              formatted_args <- format_args formatted_args ;;
              Ok {| full_response := full_response c;
                    function_calls :=
                      function_calls c
                      ++ [calling_line (fmt_opt (current_function_name c))
                                       formatted_args];
                    current_function_name := None;
                    argument_buffer := [] |}
            else Ok c) ;;
      Ok {| full_response := full_response c;
            function_calls := function_calls c ++ [result_line result];
            current_function_name := current_function_name c;
            argument_buffer := argument_buffer c |}
  | StreamingTextContent text =>
      if truthy text
      then Ok {| full_response := full_response c ++ [fmt_opt text];
                 function_calls := function_calls c;
                 current_function_name := current_function_name c;
                 argument_buffer := argument_buffer c |}
      else Ok c
  | OtherContent => Ok c
  end.

Fixpoint process_items (c : Collectors) (content_items : list Item)
  : Exc Collectors :=
  match content_items with
  | [] => Ok c
  | item :: rest => c <- process_item c item ;; process_items c rest
  end.

(** *** The batch cell: [main] *)

(** The local variables of [main] that live across the iterations of
    [for user_input in user_inputs]. *)
Record Frame : Type := {
  m_thread : option Thread;
  m_html_output : str;
  m_agent_name : option str;
  m_collectors : Collectors
}.

(** The assignments at the top of the loop body. *)
Definition main_begin (f : Frame) (user_input : str) : Frame :=
  {| m_thread := m_thread f;
     m_html_output := user_block user_input;
     m_agent_name := None;
     m_collectors := fresh |}.

(** The body of [async for response in agent.invoke_stream(...)]. *)
Definition main_on_response (f : Frame) (response : AgentResponse Thread)
  : Exc Frame :=
  let thread := Some (response_thread response) in
  let agent_name := response_name response in
  let content_items := response_items response in
  c <- process_items (m_collectors f) content_items ;;
  Ok {| m_thread := thread;
        m_html_output := m_html_output f;
        m_agent_name := agent_name;
        m_collectors := c |}.

Fixpoint main_stream (f : Frame) (responses : list (AgentResponse Thread))
  : Exc Frame :=
  match responses with
  | [] => Ok f
  | response :: rest =>
      f <- main_on_response f response ;; main_stream f rest
  end.

(** [agent_name or 'Assistant'] *)
Definition name_or_assistant (agent_name : option str) : str :=
  if truthy agent_name then fmt_opt agent_name else lit "Assistant".

(** The statements after the [async for]: the frame they leave and the
    HTML they hand to [display]. *)
Definition main_end (f : Frame) : Frame * str :=
  let html_output :=
    finish_html (m_html_output f) (m_collectors f)
                (name_or_assistant (m_agent_name f)) in
  ({| m_thread := m_thread f;
      m_html_output := html_output;
      m_agent_name := m_agent_name f;
      m_collectors := m_collectors f |},
   html_output).

(** One iteration of the outer loop, on the stream the agent gave. *)
Definition main_turn_on (f : Frame) (user_input : str)
           (responses : list (AgentResponse Thread)) : Exc (Frame * str) :=
  let f := main_begin f user_input in
  f <- main_stream f responses ;;
  Ok (main_end f).

Definition main_turn (f : Frame) (user_input : str) : Exc (Frame * str) :=
  main_turn_on f user_input (invoke_stream user_input (m_thread f)).

(** The outer loop; [displayed] is what [display] has shown so far. *)
Fixpoint main_loop (f : Frame) (displayed : list str)
         (user_inputs : list str) : Exc (Frame * list str) :=
  match user_inputs with
  | [] => Ok (f, displayed)
  | user_input :: rest =>
      r <- main_turn f user_input ;;
      main_loop (fst r) (displayed ++ [snd r]) rest
  end.

(** The frame on entry to the loop: [thread] is [None]; the other
    locals are not bound yet and are assigned before they are read. *)
Definition main_entry : Frame :=
  {| m_thread := None;
     m_html_output := [];
     m_agent_name := None;
     m_collectors := fresh |}.

Definition main (user_inputs : list str) : Exc (Frame * list str) :=
  main_loop main_entry [] user_inputs.

(** The cell's [user_inputs]. *)
Definition user_inputs : list str :=
  [ lit "What destinations are available?";
    lit "Is Barcelona available?";
    lit "Are there any vacation destinations available not in Europe?" ].

(** *** The interactive cell *)

(** [agent.name if hasattr(agent, "name") else "Assistant"] *)
Definition agent_name : str :=
  match agent_name_attr with
  | Some name => name
  | None => lit "Assistant"
  end.

(** A [process_user_input] coroutine handed to [asyncio.create_task]:
    not started yet, or suspended in its [async for] with its locals
    and the responses still to come. *)
Inductive Task : Type :=
| Created (user_input : str)
| Streaming (user_input : str) (html_output : str) (c : Collectors)
            (pending : list (AgentResponse Thread)).

(** The module-level state of the cell and the event loop's tasks. *)
Record Notebook : Type := {
  thread : option Thread;
  input_box_value : str;
  output_area : list str;
  tasks : list Task
}.

Definition intro_html : str :=
  lit "<div style='margin-bottom:20px'><div style='font-weight:bold'>"
  ++ agent_name ++ lit ":</div>"
  ++ lit "<div style='margin-left:20px; white-space:pre-wrap'>Hello! I'm your TravelAgent assistant. I can help plan vacations and suggest interesting destinations for you. Here are some things you can ask me:" ++ chr10
  ++ lit "1. Plan a day trip to a specific location" ++ chr10
  ++ lit "2. Suggest a random vacation destination" ++ chr10
  ++ lit "3. Find destinations with specific features (beaches, mountains, historical sites, etc.)" ++ chr10
  ++ lit "4. Plan an alternative trip if you don't like my first suggestion" ++ chr10 ++ chr10
  ++ lit "What kind of trip would you like me to help you plan today?</div></div><hr>".

(** The state once the cell has run. *)
Definition notebook_start : Notebook :=
  {| thread := None;
     input_box_value := [];
     output_area := [intro_html];
     tasks := [] |}.

(** The [async for] of [process_user_input], run without interruption:
    the global [thread] and the collectors after the last response. *)
Fixpoint stream_loop (thread : option Thread) (c : Collectors)
         (responses : list (AgentResponse Thread))
  : Exc (option Thread * Collectors) :=
  match responses with
  | [] => Ok (thread, c)
  | response :: rest =>
      let thread := Some (response_thread response) in
      let content_items := response_items response in
      c <- process_items c content_items ;;
      stream_loop thread c rest
  end.

(** [process_user_input] on the stream the agent gave, run from its
    first statement to its last with no other task in between. *)
Definition process_user_input_on (nb : Notebook) (user_input : str)
           (responses : list (AgentResponse Thread)) : Exc Notebook :=
  let html_output := user_block user_input in
  r <- stream_loop (thread nb) fresh responses ;;
  let html_output := finish_html html_output (snd r) agent_name in
  Ok {| thread := fst r;
        input_box_value := input_box_value nb;
        output_area := output_area nb ++ [html_output];
        tasks := tasks nb |}.

Definition process_user_input (nb : Notebook) (user_input : str)
  : Exc Notebook :=
  process_user_input_on nb user_input (invoke_stream user_input (thread nb)).

(** [on_submit(change)], with [change_value] for [change.value]. *)
Definition on_submit (change_value : str) (nb : Notebook) : Notebook :=
  let user_input := change_value in
  if nonempty (strip user_input)
  then {| thread := thread nb;
          input_box_value := [];
          output_area := output_area nb;
          tasks := tasks nb ++ [Created user_input] |}
  else nb.

Definition with_tasks (nb : Notebook) (ts : list Task) : Notebook :=
  {| thread := thread nb;
     input_box_value := input_box_value nb;
     output_area := output_area nb;
     tasks := ts |}.

(** What the event loop may do next: deliver a submission, or resume
    any task up to its next suspension point. *)
Inductive step : Notebook -> Notebook -> Prop :=
| step_submit nb change_value :
    step nb (on_submit change_value nb)
| step_start nb before user_input after :
    tasks nb = before ++ Created user_input :: after ->
    step nb
         (with_tasks nb
            (before
             ++ Streaming user_input (user_block user_input) fresh
                          (invoke_stream user_input (thread nb))
             :: after))
| step_response nb before user_input html_output c response pending after c' :
    tasks nb
    = before ++ Streaming user_input html_output c (response :: pending)
             :: after ->
    process_items c (response_items response) = Ok c' ->
    step nb
         {| thread := Some (response_thread response);
            input_box_value := input_box_value nb;
            output_area := output_area nb;
            tasks := before ++ Streaming user_input html_output c' pending
                            :: after |}
| step_raise nb before user_input html_output c response pending after e :
    tasks nb
    = before ++ Streaming user_input html_output c (response :: pending)
             :: after ->
    process_items c (response_items response) = Raise e ->
    step nb
         {| thread := Some (response_thread response);
            input_box_value := input_box_value nb;
            output_area := output_area nb;
            tasks := before ++ after |}
| step_finish nb before user_input html_output c after :
    tasks nb = before ++ Streaming user_input html_output c [] :: after ->
    step nb
         {| thread := thread nb;
            input_box_value := input_box_value nb;
            output_area :=
              output_area nb ++ [finish_html html_output c agent_name];
            tasks := before ++ after |}.

Inductive steps : Notebook -> Notebook -> Prop :=
| steps_refl nb : steps nb nb
| steps_cons nb1 nb2 nb3 : step nb1 nb2 -> steps nb2 nb3 -> steps nb1 nb3.

(** *** Reading the outcome of a turn off the stream *)

(** The text shown for a stripped buffer: the JSON round trip when both
    [json.loads] and [json.dumps] succeed, the buffer itself otherwise. *)
Definition reserialized (formatted_args : str) : str :=
  match json_loads formatted_args with
  | Ok parsed_args =>
      match json_dumps parsed_args with
      | Ok dumped => dumped
      | Raise _ => formatted_args
      end
  | Raise _ => formatted_args
  end.

(** The [thread] of the last response, or the given one when the stream
    is empty. *)
Definition last_thread (thread : option Thread)
           (responses : list (AgentResponse Thread)) : option Thread :=
  fold_left (fun _ response => Some (response_thread response))
            responses thread.

(** The [name] of the last response. *)
Definition last_name (agent_name : option str)
           (responses : list (AgentResponse Thread)) : option str :=
  fold_left (fun _ response => response_name response) responses agent_name.

(** The block a turn on [user_input] renders when the agent is called
    on thread [t0]: the final HTML built from the collectors that start
    empty and see all the items of the stream. *)
Definition turn_block (user_input : str) (t0 : option Thread) (block : str)
  : Prop :=
  exists c,
    process_items fresh (items_of (invoke_stream user_input t0)) = Ok c
    /\ block = finish_html (user_block user_input) c agent_name.

(** A suspended task holds the user block and the collectors of the
    responses it has consumed of its own stream. *)
Definition task_ok (task : Task) : Prop :=
  match task with
  | Created _ => True
  | Streaming user_input html_output c pending =>
      html_output = user_block user_input
      /\ exists t0 consumed,
          invoke_stream user_input t0 = consumed ++ pending
          /\ process_items fresh (items_of consumed) = Ok c
  end.

Definition block_ok (block : str) : Prop :=
  block = intro_html \/ exists user_input t0, turn_block user_input t0 block.

Definition notebook_ok (nb : Notebook) : Prop :=
  Forall task_ok (tasks nb) /\ Forall block_ok (output_area nb).

(** The collectors a turn ends with, as a value. *)
Definition collected (responses : list (AgentResponse Thread)) : Collectors :=
  match process_items fresh (items_of responses) with
  | Ok c => c
  | Raise _ => fresh
  end.

(** The blocks of a run of turns in which each turn calls the agent on
    the thread the turn before it left: those of the batch cell, labelled
    with the name of the last response, and those of the interactive
    cell, labelled with the agent's name. *)
Fixpoint batch_blocks (t : option Thread) (inputs : list str) : list str :=
  match inputs with
  | [] => []
  | user_input :: rest =>
      let responses := invoke_stream user_input t in
      finish_html (user_block user_input) (collected responses)
                  (name_or_assistant (last_name None responses))
      :: batch_blocks (last_thread t responses) rest
  end.

Fixpoint chat_blocks (t : option Thread) (inputs : list str) : list str :=
  match inputs with
  | [] => []
  | user_input :: rest =>
      let responses := invoke_stream user_input t in
      finish_html (user_block user_input) (collected responses) agent_name
      :: chat_blocks (last_thread t responses) rest
  end.

(** The thread such a run ends with. *)
Fixpoint thread_after (t : option Thread) (inputs : list str)
  : option Thread :=
  match inputs with
  | [] => t
  | user_input :: rest =>
      thread_after (last_thread t (invoke_stream user_input t)) rest
  end.

(** Where a thread can come from: none yet, or the thread of a response
    the agent streamed. *)
Definition thread_ok (t : option Thread) : Prop :=
  t = None
  \/ exists user_input t0 response,
      In response (invoke_stream user_input t0)
      /\ t = Some (response_thread response).

(** ** Facts about the string helpers *)

Lemma string_arguments_app (xs ys : list Item) :
  string_arguments (xs ++ ys) = string_arguments xs ++ string_arguments ys.
Proof.
  induction xs as [|x xs IH]; simpl; [reflexivity|].
  destruct x as [fn [s| |]|r|t|]; simpl; rewrite ?IH, ?app_assoc; reflexivity.
Qed.

Lemma streamed_texts_app (xs ys : list Item) :
  streamed_texts (xs ++ ys) = streamed_texts xs ++ streamed_texts ys.
Proof.
  induction xs as [|x xs IH]; simpl; [reflexivity|].
  destruct x as [fn a|r|[[|ch t]|]|]; simpl; rewrite ?IH; reflexivity.
Qed.

Lemma join_empty_app (xs ys : list str) :
  join [] (xs ++ ys) = join [] xs ++ join [] ys.
Proof.
  induction xs as [|x xs IH]; simpl; [reflexivity|].
  destruct xs as [|x' xs].
  - simpl. destruct ys; simpl; rewrite ?app_nil_r; reflexivity.
  - change ((x' :: xs) ++ ys) with (x' :: xs ++ ys) in *.
    simpl in *. rewrite IH, app_assoc. reflexivity.
Qed.


Lemma truthy_fmt (o : option str) :
  truthy o = true -> o = Some (fmt_opt o) /\ fmt_opt o <> [].
Proof.
  destruct o as [[|ch s]|]; simpl; try discriminate.
  intros _. split; [reflexivity|discriminate].
Qed.

(** ** The item loop *)

Lemma bind_Ok {A B} (a : A) (k : A -> Exc B) : Py.bind (Ok a) k = k a.
Proof. reflexivity. Qed.

Lemma bind_assoc {A B C} (m : Exc A) (k : A -> Exc B) (h : B -> Exc C) :
  Py.bind (Py.bind m k) h = Py.bind m (fun a => Py.bind (k a) h).
Proof. destruct m; reflexivity. Qed.

Lemma format_args_eq (b : str) : format_args b = Ok (reserialized b).
Proof.
  unfold format_args, reserialized.
  destruct (json_loads b) as [v|e]; simpl; [|reflexivity].
  destruct (json_dumps v) as [d|e]; reflexivity.
Qed.

(** What a [FunctionResultContent] does when a name is pending. *)
Lemma process_result_pending (c : Collectors) (result : str) :
  truthy (current_function_name c) = true ->
  process_item c (FunctionResultContent result)
  = Ok {| full_response := full_response c;
          function_calls :=
            function_calls c
            ++ [calling_line (fmt_opt (current_function_name c))
                             (reserialized (strip (argument_buffer c)));
                result_line result];
          current_function_name := None;
          argument_buffer := [] |}.
Proof.
  intros Hp. unfold process_item. rewrite Hp, format_args_eq. simpl.
  rewrite <- app_assoc. reflexivity.
Qed.

(** What it does when none is. *)
Lemma process_result_idle (c : Collectors) (result : str) :
  truthy (current_function_name c) = false ->
  process_item c (FunctionResultContent result)
  = Ok {| full_response := full_response c;
          function_calls := function_calls c ++ [result_line result];
          current_function_name := current_function_name c;
          argument_buffer := argument_buffer c |}.
Proof. intros Hp. unfold process_item. rewrite Hp. reflexivity. Qed.

Lemma process_item_total (c : Collectors) (item : Item) :
  exists c', process_item c item = Ok c'.
Proof.
  destruct item as [fn [s| |]|r|t|].
  - simpl. eexists. reflexivity.
  - simpl. eexists. reflexivity.
  - simpl. eexists. reflexivity.
  - destruct (truthy (current_function_name c)) eqn:Hp.
    + rewrite process_result_pending by assumption. eexists. reflexivity.
    + rewrite process_result_idle by assumption. eexists. reflexivity.
  - simpl. destruct (truthy t); eexists; reflexivity.
  - simpl. eexists. reflexivity.
Qed.

Lemma process_items_app (c : Collectors) (xs ys : list Item) :
  process_items c (xs ++ ys)
  = (c' <- process_items c xs ;; process_items c' ys).
Proof.
  revert c. induction xs as [|x xs IH]; intros c; simpl; [reflexivity|].
  destruct (process_item c x) as [c1|e]; simpl; [apply IH|reflexivity].
Qed.

Lemma process_items_total (c : Collectors) (items : list Item) :
  exists c', process_items c items = Ok c'.
Proof.
  revert c. induction items as [|x xs IH]; intros c; simpl.
  - eexists. reflexivity.
  - destruct (process_item_total c x) as [c1 H1]. rewrite H1. simpl. apply IH.
Qed.

Lemma process_call (c : Collectors) (fn : option str) (a : Arguments) :
  process_item c (FunctionCallContent fn a)
  = Ok {| full_response := full_response c;
          function_calls := function_calls c;
          current_function_name :=
            if truthy fn then fn else current_function_name c;
          argument_buffer :=
            match a with
            | ArgsStr s => argument_buffer c ++ s
            | _ => argument_buffer c
            end |}.
Proof. destruct c, a; simpl; destruct (truthy fn); reflexivity. Qed.

Lemma process_text (c : Collectors) (t : option str) :
  process_item c (StreamingTextContent t)
  = Ok {| full_response :=
            if truthy t then full_response c ++ [fmt_opt t]
            else full_response c;
          function_calls := function_calls c;
          current_function_name := current_function_name c;
          argument_buffer := argument_buffer c |}.
Proof. destruct c; simpl; destruct (truthy t); reflexivity. Qed.

Lemma truthy_update (fn name : option str) :
  truthy (if truthy fn then fn else name) = truthy name || truthy fn.
Proof.
  destruct (truthy fn) eqn:E; [rewrite E|]; rewrite ?orb_true_r, ?orb_false_r;
    reflexivity.
Qed.

(** Case analysis on the next item, with the collectors it leaves. *)
Ltac next_item c x :=
  destruct x as [?fn ?a|?r|?t|];
  [ rewrite process_call
  | let Hp := fresh "Hp" in
    destruct (truthy (current_function_name c)) eqn:Hp;
    [ rewrite process_result_pending by exact Hp
    | rewrite process_result_idle by exact Hp ]
  | rewrite process_text
  | cbn [process_item] ];
  rewrite bind_Ok.

(** The texts collected are the non-empty texts streamed. *)
Lemma process_items_texts (c : Collectors) (items : list Item) :
  exists c', process_items c items = Ok c'
             /\ full_response c' = full_response c ++ streamed_texts items.
Proof.
  revert c. induction items as [|x xs IH]; intros c; cbn [process_items].
  - exists c. rewrite app_nil_r. split; reflexivity.
  - next_item c x.
    + destruct (IH {| full_response := full_response c;
          function_calls := function_calls c;
          current_function_name :=
            if truthy fn then fn else current_function_name c;
          argument_buffer :=
            match a with
            | ArgsStr s => argument_buffer c ++ s
            | _ => argument_buffer c
            end |}) as (c' & H1 & H2).
      exists c'. split; [exact H1|]. rewrite H2. reflexivity.
    + match goal with |- context [process_items ?c1 xs] =>
        destruct (IH c1) as (c' & H1 & H2) end.
      exists c'. split; [exact H1|]. rewrite H2. reflexivity.
    + match goal with |- context [process_items ?c1 xs] =>
        destruct (IH c1) as (c' & H1 & H2) end.
      exists c'. split; [exact H1|]. rewrite H2. reflexivity.
    + match goal with |- context [process_items ?c1 xs] =>
        destruct (IH c1) as (c' & H1 & H2) end.
      exists c'. split; [exact H1|]. rewrite H2. cbn [full_response].
      destruct t as [[|ch t]|]; cbn [truthy streamed_texts fmt_opt];
        rewrite <- ?app_assoc; reflexivity.
    + destruct (IH c) as (c' & H1 & H2).
      exists c'. split; [exact H1|]. rewrite H2. reflexivity.
Qed.

(** The buffer holds the string arguments received since the last
    reconstructed call, and a name is pending exactly when the stream
    says so. *)
Lemma process_items_since (c : Collectors) (seen items : list Item) :
  argument_buffer c = string_arguments seen ->
  exists c', process_items c items = Ok c'
    /\ argument_buffer c'
       = string_arguments
           (since_last_call (truthy (current_function_name c)) seen items)
    /\ truthy (current_function_name c')
       = pending_after (truthy (current_function_name c)) items.
Proof.
  revert c seen. induction items as [|x xs IH]; intros c seen Hb;
    cbn [process_items since_last_call pending_after].
  - exists c. repeat split. exact Hb.
  - next_item c x.
    + match goal with |- context [process_items ?c1 xs] =>
        destruct (IH c1 (seen ++ [FunctionCallContent fn a]))
          as (c' & H1 & H2 & H3) end.
      { cbn [argument_buffer]. rewrite string_arguments_app, Hb.
        destruct a; simpl; rewrite ?app_nil_r; reflexivity. }
      cbn [current_function_name] in H2, H3. rewrite truthy_update in H2, H3.
      exists c'. repeat split; assumption.
    + match goal with |- context [process_items ?c1 xs] =>
        destruct (IH c1 []) as (c' & H1 & H2 & H3) end.
      { reflexivity. }
      exists c'. repeat split; assumption.
    + match goal with |- context [process_items ?c1 xs] =>
        destruct (IH c1 (seen ++ [FunctionResultContent r]))
          as (c' & H1 & H2 & H3) end.
      { cbn [argument_buffer]. rewrite string_arguments_app, Hb.
        simpl. rewrite app_nil_r. reflexivity. }
      cbn [current_function_name] in H2, H3. rewrite Hp in H2, H3.
      exists c'. repeat split; assumption.
    + match goal with |- context [process_items ?c1 xs] =>
        destruct (IH c1 (seen ++ [StreamingTextContent t]))
          as (c' & H1 & H2 & H3) end.
      { cbn [argument_buffer]. rewrite string_arguments_app, Hb.
        simpl. rewrite app_nil_r. reflexivity. }
      exists c'. repeat split; assumption.
    + destruct (IH c (seen ++ [OtherContent])) as (c' & H1 & H2 & H3).
      { rewrite string_arguments_app, Hb. simpl. rewrite app_nil_r.
        reflexivity. }
      exists c'. repeat split; assumption.
Qed.

(** While no call is reconstructed the buffer only grows, and only
    result lines are collected. *)
Lemma process_items_quiet (c : Collectors) (items : list Item) :
  quiet (truthy (current_function_name c)) items = true ->
  exists c', process_items c items = Ok c'
    /\ argument_buffer c' = argument_buffer c ++ string_arguments items
    /\ function_calls c' = function_calls c ++ result_lines items
    /\ truthy (current_function_name c')
       = pending_after (truthy (current_function_name c)) items.
Proof.
  revert c. induction items as [|x xs IH]; intros c Hq;
    cbn [process_items quiet pending_after string_arguments result_lines]
      in *.
  - exists c. rewrite !app_nil_r. repeat split.
  - next_item c x.
    + match goal with |- context [process_items ?c1 xs] =>
        destruct (IH c1) as (c' & H1 & H2 & H3 & H4) end.
      { cbn [current_function_name]. rewrite truthy_update. exact Hq. }
      cbn [current_function_name argument_buffer function_calls] in *.
      rewrite truthy_update in H4.
      exists c'. repeat split; try assumption.
      rewrite H2. destruct a; rewrite <- ?app_assoc; reflexivity.
    + discriminate Hq.
    + match goal with |- context [process_items ?c1 xs] =>
        destruct (IH c1) as (c' & H1 & H2 & H3 & H4) end.
      { cbn [current_function_name]. rewrite Hp. exact Hq. }
      cbn [current_function_name argument_buffer function_calls] in *.
      rewrite Hp in H4.
      exists c'. repeat split; try assumption.
      rewrite H3, <- app_assoc. reflexivity.
    + match goal with |- context [process_items ?c1 xs] =>
        destruct (IH c1) as (c' & H1 & H2 & H3 & H4) end.
      { exact Hq. }
      exists c'. repeat split; assumption.
    + destruct (IH c Hq) as (c' & H1 & H2 & H3 & H4).
      exists c'. repeat split; assumption.
Qed.

(** Lines are only ever added, and some line is added exactly when the
    stream has a [FunctionResultContent]. *)
Lemma process_items_calls (c : Collectors) (items : list Item) :
  exists c' extra, process_items c items = Ok c'
    /\ function_calls c' = function_calls c ++ extra
    /\ nonempty_list extra = existsb is_result items.
Proof.
  revert c. induction items as [|x xs IH]; intros c;
    cbn [process_items existsb is_result].
  - exists c, []. rewrite app_nil_r. repeat split.
  - next_item c x.
    + match goal with |- context [process_items ?c1 xs] =>
        destruct (IH c1) as (c' & extra & H1 & H2 & H3) end.
      exists c', extra. repeat split; assumption.
    + match goal with |- context [process_items ?c1 xs] =>
        destruct (IH c1) as (c' & extra & H1 & H2 & H3) end.
      cbn [function_calls] in H2. rewrite <- app_assoc in H2.
      eexists c', _. repeat split; [exact H1|exact H2|reflexivity].
    + match goal with |- context [process_items ?c1 xs] =>
        destruct (IH c1) as (c' & extra & H1 & H2 & H3) end.
      cbn [function_calls] in H2. rewrite <- app_assoc in H2.
      eexists c', _. repeat split; [exact H1|exact H2|reflexivity].
    + match goal with |- context [process_items ?c1 xs] =>
        destruct (IH c1) as (c' & extra & H1 & H2 & H3) end.
      exists c', extra. repeat split; assumption.
    + destruct (IH c) as (c' & extra & H1 & H2 & H3).
      exists c', extra. repeat split; assumption.
Qed.

(** The lines come in groups, one per function result. *)
Lemma process_items_groups (c : Collectors) (items : list Item) :
  exists c' groups,
    process_items c items = Ok c'
    /\ function_calls c' = function_calls c ++ flat_map group_lines groups
    /\ List.map snd groups = results_of items
    /\ Forall (fun g => forall name args,
                         fst g = Some (name, args) -> name <> [])
              groups.
Proof.
  revert c. induction items as [|x xs IH]; intros c;
    cbn [process_items results_of].
  - exists c, []. rewrite app_nil_r. repeat split. constructor.
  - next_item c x.
    + match goal with |- context [process_items ?c1 xs] =>
        destruct (IH c1) as (c' & groups & H1 & H2 & H3 & H4) end.
      exists c', groups. repeat split; assumption.
    + match goal with |- context [process_items ?c1 xs] =>
        destruct (IH c1) as (c' & groups & H1 & H2 & H3 & H4) end.
      cbn [function_calls] in H2.
      exists c',
        ((Some (fmt_opt (current_function_name c),
                reserialized (strip (argument_buffer c))), r) :: groups).
      split; [exact H1|]. split; [|split].
      * rewrite H2, <- app_assoc. reflexivity.
      * cbn [List.map snd]. rewrite H3. reflexivity.
      * constructor; [|exact H4]. cbn [fst]. intros name args Heq.
        injection Heq as <- _. exact (proj2 (truthy_fmt _ Hp)).
    + match goal with |- context [process_items ?c1 xs] =>
        destruct (IH c1) as (c' & groups & H1 & H2 & H3 & H4) end.
      cbn [function_calls] in H2.
      exists c', ((None, r) :: groups).
      split; [exact H1|]. split; [|split].
      * rewrite H2, <- app_assoc. reflexivity.
      * cbn [List.map snd]. rewrite H3. reflexivity.
      * constructor; [|exact H4]. cbn [fst]. intros name args Heq.
        discriminate Heq.
    + match goal with |- context [process_items ?c1 xs] =>
        destruct (IH c1) as (c' & groups & H1 & H2 & H3 & H4) end.
      exists c', groups. repeat split; assumption.
    + destruct (IH c) as (c' & groups & H1 & H2 & H3 & H4).
      exists c', groups. repeat split; assumption.
Qed.




Lemma group_lines_text (result : str) :
  group_lines (None, result)
  = [ [10%N] ++ lit "Function Result:" ++ [10%N; 10%N] ++ result ]
  /\ forall name args,
      group_lines (Some (name, args), result)
      = [ lit "Calling function: " ++ name ++ lit "(" ++ args ++ lit ")";
          [10%N] ++ lit "Function Result:" ++ [10%N; 10%N] ++ result ].
Proof. split; reflexivity. Qed.

(** ** The response loops *)

Lemma last_thread_snoc (t : option Thread) (rs : list (AgentResponse Thread))
      (r : AgentResponse Thread) :
  last_thread t (rs ++ [r]) = Some (response_thread r).
Proof. unfold last_thread. rewrite fold_left_app. reflexivity. Qed.

(** The interactive loop visits the items of all responses in order and
    leaves the thread of the last response. *)
Lemma stream_loop_items (t : option Thread) (c : Collectors)
      (rs : list (AgentResponse Thread)) :
  stream_loop t c rs
  = (c' <- process_items c (items_of rs) ;;
     Ok (last_thread t rs, c')).
Proof.
  revert t c. induction rs as [|r rs IH]; intros t c;
    cbn [stream_loop items_of flat_map]; [reflexivity|].
  change (flat_map (fun response => response_items response) rs)
    with (items_of rs).
  rewrite process_items_app, bind_assoc.
  destruct (process_items c (response_items r)) as [c1|e];
    [|reflexivity].
  rewrite !bind_Ok. apply IH.
Qed.

(** So does the batch loop, which also keeps the name of the last
    response. *)
Lemma main_stream_items (f : Frame) (rs : list (AgentResponse Thread)) :
  main_stream f rs
  = (c' <- process_items (m_collectors f) (items_of rs) ;;
     Ok {| m_thread := last_thread (m_thread f) rs;
           m_html_output := m_html_output f;
           m_agent_name := last_name (m_agent_name f) rs;
           m_collectors := c' |}).
Proof.
  revert f. induction rs as [|r rs IH]; intros f;
    cbn [main_stream items_of flat_map].
  - destruct f; reflexivity.
  - change (flat_map (fun response => response_items response) rs)
    with (items_of rs).
    unfold main_on_response.
    rewrite process_items_app, !bind_assoc.
    destruct (process_items (m_collectors f) (response_items r)) as [c1|e];
      [|reflexivity].
    rewrite !bind_Ok. rewrite IH. reflexivity.
Qed.

Lemma stream_loop_total (t : option Thread) (c : Collectors)
      (rs : list (AgentResponse Thread)) :
  exists c', process_items c (items_of rs) = Ok c'
             /\ stream_loop t c rs = Ok (last_thread t rs, c').
Proof.
  destruct (process_items_total c (items_of rs)) as [c' H].
  exists c'. split; [exact H|]. rewrite stream_loop_items, H. reflexivity.
Qed.

Lemma process_user_input_total (nb : Notebook) (user_input : str) :
  exists nb', process_user_input nb user_input = Ok nb'.
Proof.
  unfold process_user_input, process_user_input_on.
  destruct (stream_loop_total (thread nb) fresh
              (invoke_stream user_input (thread nb))) as (c' & _ & H).
  rewrite H. eexists. reflexivity.
Qed.

Lemma main_turn_total (f : Frame) (user_input : str) :
  exists r, main_turn f user_input = Ok r.
Proof.
  unfold main_turn, main_turn_on. rewrite main_stream_items.
  match goal with |- context [process_items ?c ?xs] =>
    destruct (process_items_total c xs) as [c' H] end.
  rewrite H. eexists. reflexivity.
Qed.

Lemma main_loop_total (f : Frame) (displayed inputs : list str) :
  exists f' shown, main_loop f displayed inputs = Ok (f', displayed ++ shown)
                   /\ List.length shown = List.length inputs.
Proof.
  revert f displayed. induction inputs as [|u us IH]; intros f displayed;
    cbn [main_loop].
  - exists f, []. rewrite app_nil_r. split; reflexivity.
  - destruct (main_turn_total f u) as [[f1 html] H]. rewrite H, bind_Ok.
    cbn [fst snd].
    destruct (IH f1 (displayed ++ [html])) as (f' & shown & H1 & H2).
    exists f', (html :: shown). rewrite H1, <- app_assoc. cbn [List.length].
    split; [reflexivity|]. rewrite H2. reflexivity.
Qed.

(** ** The event loop *)

Lemma steps_trans (nb1 nb2 nb3 : Notebook) :
  steps nb1 nb2 -> steps nb2 nb3 -> steps nb1 nb3.
Proof.
  induction 1 as [|a b c' Hab Hbc IH]; intros H; [exact H|].
  eapply steps_cons; [exact Hab|apply IH; exact H].
Qed.

Lemma steps_one (nb1 nb2 : Notebook) : step nb1 nb2 -> steps nb1 nb2.
Proof. intros H. eapply steps_cons; [exact H|apply steps_refl]. Qed.

(** A suspended task that is resumed until it ends, with no other task
    run in between, does what [stream_loop] and the final statements
    do. *)
Lemma steps_streaming (rs : list (AgentResponse Thread)) :
  forall nb before user_input html_output c after,
    tasks nb = before ++ Streaming user_input html_output c rs :: after ->
    exists c',
      stream_loop (thread nb) c rs = Ok (last_thread (thread nb) rs, c')
      /\ steps nb
               {| thread := last_thread (thread nb) rs;
                  input_box_value := input_box_value nb;
                  output_area :=
                    output_area nb
                    ++ [finish_html html_output c' agent_name];
                  tasks := before ++ after |}.
Proof.
  induction rs as [|r rs IH]; intros nb before u h c after Ht.
  - exists c. split; [reflexivity|].
    apply steps_one. cbn [last_thread fold_left].
    eapply step_finish. exact Ht.
  - destruct (process_items_total c (response_items r)) as [c1 H1].
    pose proof (step_response nb before u h c r rs after Ht H1) as Hs.
    match type of Hs with step _ ?nb1 =>
      destruct (@IH nb1 before u h c1 after eq_refl) as (c' & Hl & Hrun) end.
    cbn [thread input_box_value output_area] in Hl, Hrun.
    exists c'. split.
    + cbn [stream_loop]. rewrite H1, bind_Ok. exact Hl.
    + eapply steps_cons; [exact Hs|exact Hrun].
Qed.

(** A created task, run alone from start to end, is one call of
    [process_user_input]. *)
Lemma steps_task_alone (nb : Notebook) (before after : list Task)
      (user_input : str) :
  tasks nb = before ++ Created user_input :: after ->
  exists nb',
    process_user_input nb user_input = Ok nb'
    /\ steps nb (with_tasks nb' (before ++ after)).
Proof.
  intros Ht.
  pose proof (step_start nb before user_input after Ht) as Hs.
  match type of Hs with step _ ?nb1 =>
    destruct (@steps_streaming _ nb1 before _ _ _ after eq_refl)
      as (c' & Hl & Hrun) end.
  cbn [with_tasks thread input_box_value output_area] in Hl, Hrun.
  unfold process_user_input, process_user_input_on. rewrite Hl, bind_Ok.
  eexists. split; [reflexivity|].
  eapply steps_cons; [exact Hs|exact Hrun].
Qed.

(** Whatever the order in which the event loop resumes the tasks, each
    keeps to its own stream and its own collectors. *)
Lemma step_ok (nb nb' : Notebook) :
  step nb nb' -> notebook_ok nb -> notebook_ok nb'.
Proof.
  intros Hstep [Htasks Hout].
  destruct Hstep as
    [ nb v
    | nb before u after Ht
    | nb before u h c r pending after c' Ht Hc'
    | nb before u h c r pending after e Ht He
    | nb before u h c after Ht ];
    try (rewrite Ht in Htasks; apply Forall_app in Htasks;
         destruct Htasks as [Hb Hrest]; apply Forall_cons_iff in Hrest;
         destruct Hrest as [Htask Ha]).
  - unfold on_submit. destruct (nonempty (strip v)); [|split; assumption].
    split; [|exact Hout]. cbn [tasks]. apply Forall_app. split; [exact Htasks|].
    constructor; [exact I|constructor].
  - split; [|exact Hout]. cbn [with_tasks tasks]. apply Forall_app.
    split; [exact Hb|]. constructor; [|exact Ha].
    split; [reflexivity|]. exists (thread nb), []. split; reflexivity.
  - split; [|exact Hout]. cbn [tasks]. apply Forall_app.
    split; [exact Hb|]. constructor; [|exact Ha].
    destruct Htask as (Hh & t0 & consumed & Hs & Hc).
    split; [exact Hh|]. exists t0, (consumed ++ [r]). split.
    + rewrite <- app_assoc. exact Hs.
    + unfold items_of in *. rewrite flat_map_app, process_items_app, Hc.
      cbn [flat_map]. rewrite app_nil_r, bind_Ok. exact Hc'.
  - split; [|exact Hout]. cbn [tasks]. apply Forall_app. split; assumption.
  - split; cbn [tasks output_area].
    + apply Forall_app. split; assumption.
    + apply Forall_app. split; [exact Hout|]. constructor; [|constructor].
      destruct Htask as (Hh & t0 & consumed & Hs & Hc).
      rewrite app_nil_r in Hs. right. exists u, t0, c.
      rewrite Hs, Hh. split; [exact Hc|reflexivity].
Qed.

Lemma steps_ok (nb nb' : Notebook) :
  steps nb nb' -> notebook_ok nb -> notebook_ok nb'.
Proof.
  induction 1 as [|a b c Hab Hbc IH]; intros Hok; [exact Hok|].
  apply IH. exact (step_ok Hab Hok).
Qed.

Lemma notebook_start_ok : notebook_ok notebook_start.
Proof.
  split; cbn [notebook_start tasks output_area]; [constructor|].
  constructor; [left; reflexivity|constructor].
Qed.

(** ** The claims *)

(** C1. When a FunctionResultContent item is processed while a function
    name is pending, the buffer is stripped and sent through json.loads
    and then json.dumps: the line collected shows the dumped text when
    both succeed, and for every buffer json.loads rejects the exception
    is handled and the line shows the stripped buffer itself.  Either
    way the 'Calling function: name(args)' line is collected, before the
    result line, and no turn raises, batch or interactive. *)
Theorem C1_rejected_json_is_shown_raw (c : Collectors) (result : str) :
  truthy (current_function_name c) = true ->
  exists shown,
    process_item c (FunctionResultContent result)
    = Ok {| full_response := full_response c;
            function_calls :=
              function_calls c
              ++ [calling_line (fmt_opt (current_function_name c)) shown;
                  result_line result];
            current_function_name := None;
            argument_buffer := [] |}
    /\ calling_line (fmt_opt (current_function_name c)) shown
       = lit "Calling function: " ++ fmt_opt (current_function_name c)
         ++ lit "(" ++ shown ++ lit ")"
    /\ (forall e, json_loads (strip (argument_buffer c)) = Raise e ->
        format_args (strip (argument_buffer c))
        = Ok (strip (argument_buffer c))
        /\ shown = strip (argument_buffer c))
    /\ (forall parsed dumped,
        json_loads (strip (argument_buffer c)) = Ok parsed ->
        json_dumps parsed = Ok dumped -> shown = dumped)
    /\ (forall nb user_input,
        exists nb', process_user_input nb user_input = Ok nb')
    /\ (forall inputs, exists r, main inputs = Ok r).
Proof.
  intros Hp. exists (reserialized (strip (argument_buffer c))).
  split; [apply process_result_pending; exact Hp|].
  split; [reflexivity|].
  split; [|split; [|split]].
  - intros e He. rewrite format_args_eq. unfold reserialized. rewrite He.
    split; reflexivity.
  - intros parsed dumped Hl Hd. unfold reserialized. rewrite Hl, Hd.
    reflexivity.
  - apply process_user_input_total.
  - intros inputs. unfold main.
    destruct (main_loop_total main_entry [] inputs) as (f' & shown & H & _).
    eexists. exact H.
Qed.

(** C2. In every turn, the arguments shown for a reconstructed call are
    the string-typed [arguments] of the FunctionCallContent items
    received since the previous reconstructed call (or since the start of
    the turn), concatenated in stream order, stripped, and re-serialized
    as JSON where that succeeds.  An item whose [arguments] is not a
    string leaves the buffer as it is, and the reconstruction leaves no
    pending name and an empty buffer. *)
Theorem C2_arguments_are_the_chunks_since_last_call
        (t : option Thread) (responses : list (AgentResponse Thread))
        (pre post : list Item) (result : str) :
  items_of responses
  = pre ++ FunctionResultContent result :: post ->
  pending_after false pre = true ->
  exists name c c' final later,
    process_items fresh pre = Ok c
    /\ current_function_name c = Some name
    /\ argument_buffer c = string_arguments (since_last_call false [] pre)
    /\ process_items fresh (pre ++ [FunctionResultContent result]) = Ok c'
    /\ current_function_name c' = None
    /\ argument_buffer c' = []
    /\ stream_loop t fresh responses = Ok (last_thread t responses, final)
    /\ function_calls final
       = function_calls c
         ++ [calling_line name
               (reserialized
                  (strip (string_arguments (since_last_call false [] pre))));
             result_line result]
         ++ later
    /\ (forall c0 fn a, (forall s, a <> ArgsStr s) ->
        exists c1, process_item c0 (FunctionCallContent fn a) = Ok c1
                   /\ argument_buffer c1 = argument_buffer c0).
Proof.
  intros Hsplit Hpend.
  destruct (process_items_since fresh [] pre eq_refl) as (c & Hc & Hbuf & Hname).
  cbn [fresh current_function_name truthy] in Hbuf, Hname.
  rewrite Hpend in Hname.
  destruct (truthy_fmt _ Hname) as [Hsome _].
  pose proof (process_result_pending c result Hname) as Hres.
  match type of Hres with _ = Ok ?c1 =>
    destruct (process_items_calls c1 post) as (final & later & Hf & Hcalls & _)
  end.
  exists (fmt_opt (current_function_name c)), c.
  eexists. exists final, later.
  split; [exact Hc|]. split; [exact Hsome|]. split; [exact Hbuf|].
  split.
  { rewrite process_items_app, Hc, bind_Ok. cbn [process_items].
    rewrite Hres. reflexivity. }
  split; [reflexivity|]. split; [reflexivity|].
  split.
  { rewrite stream_loop_items, Hsplit, process_items_app, Hc, bind_Ok.
    cbn [process_items]. rewrite Hres, bind_Ok, Hf. reflexivity. }
  split.
  { rewrite Hcalls. cbn [function_calls]. rewrite Hbuf, <- app_assoc.
    reflexivity. }
  intros c0 fn a Hns. rewrite process_call. eexists. split; [reflexivity|].
  cbn [argument_buffer]. destruct a as [s| |]; try reflexivity.
  exfalso. exact (Hns s eq_refl).
Qed.

(** The collectors at the end of a turn, read off the stream. *)
Lemma turn_collectors (responses : list (AgentResponse Thread)) :
  exists c, process_items fresh (items_of responses) = Ok c
    /\ full_response c = streamed_texts (items_of responses)
    /\ nonempty_list (function_calls c)
       = existsb is_result (items_of responses).
Proof.
  set (items := items_of responses).
  destruct (process_items_texts fresh items) as (c & Hc & Ht).
  destruct (process_items_calls fresh items) as (c2 & extra & Hc2 & Hx & Hn).
  rewrite Hc in Hc2. injection Hc2 as <-.
  exists c. split; [exact Hc|]. split; [exact Ht|].
  rewrite Hx. exact Hn.
Qed.



(** C4. The pending name, the argument buffer, the text chunks and the
    function-call lines are set afresh at the start of every turn: what
    an earlier turn left in them has no effect on the next one, which
    starts from the empty collectors whatever its frame held.  Nothing of
    them is kept in the interactive cell's state, whose turn only adds
    one block to the output area.  The thread alone is carried over: each
    streamed response overwrites it with its own, so a turn leaves the
    thread of its last response (the thread it found, if nothing was
    streamed), and the next turn of the batch cell starts from it.  In the
    interactive cell this holds however the event loop interleaves the
    tasks: every block it ever shows, the greeting apart, is the rendering
    of one turn from empty collectors. *)
Theorem C4_collectors_are_per_turn
        (f : Frame) (nb : Notebook) (user_input : str)
        (responses : list (AgentResponse Thread)) :
  (forall html_output name c,
      main_turn {| m_thread := m_thread f;
                   m_html_output := html_output;
                   m_agent_name := name;
                   m_collectors := c |} user_input
      = main_turn f user_input)
  /\ (exists c,
        process_items fresh (items_of responses) = Ok c
        /\ main_turn_on f user_input responses
           = Ok (main_end
                   {| m_thread := last_thread (m_thread f) responses;
                      m_html_output := user_block user_input;
                      m_agent_name := last_name None responses;
                      m_collectors := c |})
        /\ process_user_input_on nb user_input responses
           = Ok {| thread := last_thread (thread nb) responses;
                   input_box_value := input_box_value nb;
                   output_area :=
                     output_area nb
                     ++ [finish_html (user_block user_input) c agent_name];
                   tasks := tasks nb |})
  /\ (forall t c r before,
        exists c',
          stream_loop t c (before ++ [r]) = Ok (Some (response_thread r), c'))
  /\ (forall r before,
        exists f',
          main_stream f (before ++ [r]) = Ok f'
          /\ m_thread f' = Some (response_thread r))
  /\ (forall t c, stream_loop t c [] = Ok (t, c))
  /\ (forall rest displayed,
        exists f' html,
          main_turn f user_input = Ok (f', html)
          /\ m_thread f'
             = last_thread (m_thread f)
                           (invoke_stream user_input (m_thread f))
          /\ main_loop f displayed (user_input :: rest)
             = main_loop f' (displayed ++ [html]) rest)
  /\ (forall nb',
        steps notebook_start nb' ->
        Forall (fun block =>
                  block = intro_html
                  \/ exists asked t0 c,
                      process_items fresh (items_of (invoke_stream asked t0))
                      = Ok c
                      /\ block = finish_html (user_block asked) c agent_name)
               (output_area nb')).
Proof.
  split; [reflexivity|]. split.
  { destruct (process_items_total fresh (items_of responses))
      as [c Hc].
    exists c. split; [exact Hc|]. split.
    - unfold main_turn_on. rewrite main_stream_items.
      cbn [main_begin m_collectors m_thread m_html_output m_agent_name].
      rewrite Hc. reflexivity.
    - unfold process_user_input_on. rewrite stream_loop_items, Hc.
      reflexivity. }
  split.
  { intros t c r before.
    destruct (stream_loop_total t c (before ++ [r])) as (c' & _ & H).
    exists c'. rewrite H, last_thread_snoc. reflexivity. }
  split.
  { intros r before. rewrite main_stream_items.
    match goal with |- context [process_items ?c ?xs] =>
      destruct (process_items_total c xs) as [c' H] end.
    rewrite H, bind_Ok. eexists. split; [reflexivity|].
    cbn [m_thread]. apply last_thread_snoc. }
  split; [reflexivity|].
  split.
  { intros rest displayed. cbn [main_loop].
    unfold main_turn, main_turn_on. rewrite main_stream_items.
    cbn [main_begin m_collectors m_thread m_html_output m_agent_name].
    match goal with |- context [process_items ?c ?xs] =>
      destruct (process_items_total c xs) as [c' H] end.
    rewrite H, !bind_Ok.
    eexists. eexists. split; [reflexivity|]. split; reflexivity. }
  intros nb' Hrun.
  destruct (steps_ok Hrun notebook_start_ok) as [_ Hout].
  eapply Forall_impl; [|exact Hout].
  intros block [->|(asked & t0 & c & Hc & ->)]; [left; reflexivity|].
  right. exists asked, t0, c. split; [exact Hc|reflexivity].
Qed.

(** C5. The plugin given to the agent has exactly two kernel functions.
    get_destinations takes no argument and returns one fixed text whose
    entries are the five destinations Barcelona, Paris, Berlin, Tokyo and
    New York; get_availability returns one fixed text whose entries give
    the availability of the same five. *)
Theorem C5_plugin_has_two_lookups (destination : str) :
  List.map fst DestinationsPlugin.kernel_functions
  = [lit "get_destinations"; lit "get_availability"]
  /\ List.map snd DestinationsPlugin.kernel_functions = [0; 1]
  /\ entries (DestinationsPlugin.get_destinations tt)
     = [ lit "Barcelona, Spain"; lit "Paris, France"; lit "Berlin, Germany";
         lit "Tokyo, Japan"; lit "New York, USA" ]
  /\ List.map (head_field 44)
              (entries (DestinationsPlugin.get_destinations tt))
     = five_destinations
  /\ entries (DestinationsPlugin.get_availability tt destination)
     = [ lit "Barcelona - Unavailable"; lit "Paris - Available";
         lit "Berlin - Available"; lit "Tokyo - Unavailable";
         lit "New York - Available" ]
  /\ List.map (head_field 45)
              (entries (DestinationsPlugin.get_availability tt destination))
     = five_destinations
  /\ List.length five_destinations = 5.
Proof. repeat split; vm_compute; reflexivity. Qed.


(** C7. A submission whose stripped text is not empty creates exactly one
    task, a [process_user_input] coroutine for that text, and clears the
    input box; the tasks already there stay as they are.  Nothing makes
    the tasks of successive turns wait for one another: after two such
    submissions the second task may start while the first has not
    finished, and then both stream on the thread the first one found. *)
Theorem C7_one_task_per_submission
        (nb : Notebook) (change_value : str) :
  nonempty (strip change_value) = true ->
  on_submit change_value nb
  = {| thread := thread nb;
       input_box_value := [];
       output_area := output_area nb;
       tasks := tasks nb ++ [Created change_value] |}
  /\ (exists nb',
        process_user_input (on_submit change_value nb) change_value = Ok nb'
        /\ steps (on_submit change_value nb) (with_tasks nb' (tasks nb)))
  /\ (forall second,
        nonempty (strip second) = true ->
        steps nb
              {| thread := thread nb;
                 input_box_value := [];
                 output_area := output_area nb;
                 tasks :=
                   tasks nb
                   ++ [Streaming change_value (user_block change_value) fresh
                                 (invoke_stream change_value (thread nb));
                       Streaming second (user_block second) fresh
                                 (invoke_stream second (thread nb))] |}).
Proof.
  intros Hv.
  assert (Hsub : forall v nb0, nonempty (strip v) = true ->
            on_submit v nb0
            = {| thread := thread nb0;
                 input_box_value := [];
                 output_area := output_area nb0;
                 tasks := tasks nb0 ++ [Created v] |}).
  { intros v nb0 H. unfold on_submit. rewrite H. reflexivity. }
  split; [apply Hsub; exact Hv|]. split.
  { rewrite (Hsub _ nb Hv).
    match goal with |- context [process_user_input ?nb1 _] =>
      destruct (@steps_task_alone nb1 (tasks nb) [] _ eq_refl)
        as (nb' & Hrun & Hsteps) end.
    rewrite app_nil_r in Hsteps. exists nb'. split; assumption. }
  intros second H2.
  eapply steps_cons; [apply (step_submit nb change_value)|].
  eapply steps_cons; [apply step_submit with (change_value := second)|].
  rewrite (Hsub _ nb Hv). rewrite Hsub by exact H2.
  cbn [thread input_box_value output_area tasks].
  eapply steps_cons.
  { apply step_start with (before := tasks nb) (user_input := change_value)
                          (after := [Created second]).
    cbn [tasks]. rewrite <- app_assoc. reflexivity. }
  cbn [with_tasks thread input_box_value output_area tasks].
  apply steps_one.
  match goal with |- step ?a ?b =>
    pose proof (step_start a
                  (tasks nb
                   ++ [Streaming change_value (user_block change_value) fresh
                                 (invoke_stream change_value (thread nb))])
                  second [] ) as Hs end.
  cbn [with_tasks thread input_box_value output_area tasks] in Hs.
  rewrite <- !app_assoc in Hs. cbn [app] in Hs.
  apply Hs. reflexivity.
Qed.

(** C8. Whatever two destinations it is asked about, get_availability
    returns the same text: the answer does not depend on the argument. *)
Theorem C8_availability_ignores_destination (d1 d2 : str) :
  DestinationsPlugin.get_availability tt d1
  = DestinationsPlugin.get_availability tt d2.
Proof. reflexivity. Qed.

(** C9. A FunctionResultContent item that arrives while no function name
    is pending adds the result line alone (a line break, 'Function
    Result:', two line breaks and the result text), with no 'Calling
    function' line, and leaves the argument buffer as it is.  The text buffered so
    far is therefore shown, ahead of the chunks that follow, with the
    next call that is reconstructed in the turn. *)
Theorem C9_unpaired_result_keeps_buffer
        (c : Collectors) (result : str) (following : list Item)
        (next_result : str) :
  truthy (current_function_name c) = false ->
  quiet false following = true ->
  pending_after false following = true ->
  process_item c (FunctionResultContent result)
  = Ok {| full_response := full_response c;
          function_calls := function_calls c ++ [result_line result];
          current_function_name := current_function_name c;
          argument_buffer := argument_buffer c |}
  /\ (forall r,
      result_line r = [10%N] ++ lit "Function Result:" ++ [10%N; 10%N] ++ r)
  /\ (forall name args,
      calling_line name args
      = lit "Calling function: " ++ name ++ lit "(" ++ args ++ lit ")")
  /\ exists name c1 c',
      process_items c (FunctionResultContent result :: following) = Ok c1
      /\ current_function_name c1 = Some name
      /\ process_items c (FunctionResultContent result
                          :: following ++ [FunctionResultContent next_result])
         = Ok c'
      /\ function_calls c'
         = function_calls c ++ [result_line result]
           ++ result_lines following
           ++ [calling_line name
                 (reserialized
                    (strip (argument_buffer c
                            ++ string_arguments following)));
               result_line next_result]
      /\ current_function_name c' = None
      /\ argument_buffer c' = [].
Proof.
  intros Hidle Hq Hp.
  pose proof (process_result_idle c result Hidle) as Hres.
  split; [exact Hres|].
  split; [intros r; reflexivity|]. split; [intros name args; reflexivity|].
  match type of Hres with _ = Ok ?c1 => set (c1' := c1) in * end.
  assert (Hidle1 : truthy (current_function_name c1') = false)
    by exact Hidle.
  destruct (process_items_quiet c1' following) as (c2 & H2 & Hb & Hf & Hn).
  { rewrite Hidle1. exact Hq. }
  rewrite Hidle1, Hp in Hn.
  destruct (truthy_fmt _ Hn) as [Hsome _].
  assert (Hrun : process_items c (FunctionResultContent result :: following)
                 = Ok c2).
  { cbn [process_items]. rewrite Hres, bind_Ok. exact H2. }
  exists (fmt_opt (current_function_name c2)), c2. eexists.
  split; [exact Hrun|]. split; [exact Hsome|]. split.
  { change (FunctionResultContent result
            :: following ++ [FunctionResultContent next_result])
      with ((FunctionResultContent result :: following)
            ++ [FunctionResultContent next_result]).
    rewrite process_items_app, Hrun, bind_Ok. cbn [process_items].
    rewrite process_result_pending by exact Hn. reflexivity. }
  split; [|split; reflexivity].
  cbn [function_calls]. rewrite Hf, Hb. subst c1'.
  cbn [function_calls argument_buffer]. rewrite <- !app_assoc.
  reflexivity.
Qed.

(** C10. A submission whose text is empty once stripped does nothing: no
    task is created, the output area is as it was, and the input box
    keeps its value. *)
Theorem C10_blank_submission_is_ignored
        (nb : Notebook) (change_value : str) :
  strip change_value = [] ->
  on_submit change_value nb = nb
  /\ tasks (on_submit change_value nb) = tasks nb
  /\ output_area (on_submit change_value nb) = output_area nb
  /\ input_box_value (on_submit change_value nb) = input_box_value nb.
Proof.
  intros Hb. unfold on_submit. rewrite Hb. cbn [nonempty].
  repeat split.
Qed.

(** ** More about [strip] and what rests on it *)

Lemma lstrip_split (s : str) :
  exists l, s = l ++ lstrip s /\ forallb isspace l = true.
Proof.
  induction s as [|ch s IH]; cbn [lstrip].
  - exists []. split; reflexivity.
  - destruct (isspace ch) eqn:E.
    + destruct IH as (l & Hs & Hl). exists (ch :: l). split.
      * cbn [app]. rewrite <- Hs. reflexivity.
      * cbn [forallb]. rewrite E, Hl. reflexivity.
    + exists []. split; reflexivity.
Qed.

Lemma lstrip_head (s : str) :
  match lstrip s with
  | ch :: _ => isspace ch = false
  | [] => True
  end.
Proof.
  induction s as [|ch s IH]; cbn [lstrip]; [exact I|].
  destruct (isspace ch) eqn:E; [exact IH|exact E].
Qed.

Lemma lstrip_blank (s : str) : forallb isspace s = true -> lstrip s = [].
Proof.
  induction s as [|ch s IH]; cbn [lstrip forallb]; [reflexivity|].
  destruct (isspace ch); [exact IH|discriminate].
Qed.

Lemma forallb_rev (f : N -> bool) (l : str) :
  forallb f (rev l) = forallb f l.
Proof.
  induction l as [|x l IH]; [reflexivity|].
  cbn [rev forallb]. rewrite forallb_app, IH. cbn [forallb].
  rewrite andb_true_r. apply andb_comm.
Qed.

(** [strip] removes a blank prefix and a blank suffix, and nothing
    else. *)
Lemma strip_split (s : str) :
  exists l r, s = l ++ strip s ++ r
              /\ forallb isspace l = true /\ forallb isspace r = true.
Proof.
  destruct (lstrip_split s) as (l & Hs & Hl).
  destruct (lstrip_split (rev (lstrip s))) as (l2 & H2 & Hl2).
  exists l, (rev l2). split; [|split; [exact Hl|]].
  - unfold strip, rstrip. rewrite <- rev_app_distr, <- H2, rev_involutive.
    exact Hs.
  - rewrite forallb_rev. exact Hl2.
Qed.

Lemma strip_ends (s : str) :
  match strip s with
  | ch :: _ => isspace ch = false
  | [] => True
  end
  /\ match rev (strip s) with
     | ch :: _ => isspace ch = false
     | [] => True
     end.
Proof.
  split.
  - destruct (lstrip_split (rev (lstrip s))) as (l2 & H2 & _).
    assert (Hm : lstrip s = strip s ++ rev l2).
    { unfold strip, rstrip.
      rewrite <- rev_app_distr, <- H2, rev_involutive. reflexivity. }
    pose proof (lstrip_head s) as Hh. rewrite Hm in Hh.
    destruct (strip s) as [|ch t]; [exact I|exact Hh].
  - unfold strip, rstrip. rewrite rev_involutive. apply lstrip_head.
Qed.

Lemma strip_blank (s : str) : forallb isspace s = true -> strip s = [].
Proof.
  intros H. unfold strip, rstrip. rewrite (lstrip_blank s H). reflexivity.
Qed.

Lemma strip_nonempty (s : str) : nonempty (strip s) = existsb nonspace s.
Proof.
  destruct (strip_split s) as (l & r & Hs & Hl & Hr).
  pose proof (proj1 (strip_ends s)) as Hh.
  assert (Hno : forall b, forallb isspace b = true -> existsb nonspace b = false).
  { induction b as [|x b IH]; cbn [forallb existsb]; [reflexivity|].
    unfold nonspace at 1. destruct (isspace x); [exact IH|discriminate]. }
  rewrite Hs at 2. rewrite !existsb_app, (Hno l Hl), (Hno r Hr), orb_false_r.
  cbn [orb]. destruct (strip s) as [|ch t]; [reflexivity|].
  cbn [nonempty existsb]. unfold nonspace at 1. rewrite Hh. reflexivity.
Qed.

(** X1. A submission is taken exactly when its text has a character that
    is not a blank.  It then becomes a task for the text as typed, blanks
    around it included, and the input box is emptied; otherwise the state
    is left as it was. *)
Theorem X1_submission_taken_iff_not_blank
        (nb : Notebook) (change_value : str) :
  on_submit change_value nb
  = if existsb nonspace change_value
    then {| thread := thread nb;
            input_box_value := [];
            output_area := output_area nb;
            tasks := tasks nb ++ [Created change_value] |}
    else nb.
Proof. unfold on_submit. rewrite strip_nonempty. reflexivity. Qed.

(** X2. When the buffer of a pending call is not JSON, the arguments
    shown are the buffer without the blanks before and after it: the
    buffer is some blanks, the text shown, some blanks, and the text shown
    neither starts nor ends with a blank. *)
Theorem X2_raw_arguments_are_the_trimmed_buffer
        (c : Collectors) (result : str) (e : Exception) :
  truthy (current_function_name c) = true ->
  json_loads (strip (argument_buffer c)) = Raise e ->
  exists before shown after,
    argument_buffer c = before ++ shown ++ after
    /\ forallb isspace before = true
    /\ forallb isspace after = true
    /\ hd_error (List.map isspace shown) <> Some true
    /\ hd_error (List.map isspace (rev shown)) <> Some true
    /\ process_item c (FunctionResultContent result)
       = Ok {| full_response := full_response c;
               function_calls :=
                 function_calls c
                 ++ [calling_line (fmt_opt (current_function_name c)) shown;
                     result_line result];
               current_function_name := None;
               argument_buffer := [] |}.
Proof.
  intros Hp Hrej.
  destruct (strip_split (argument_buffer c)) as (l & r & Hs & Hl & Hr).
  destruct (strip_ends (argument_buffer c)) as [Hh Ht].
  exists l, (strip (argument_buffer c)), r.
  split; [exact Hs|]. split; [exact Hl|]. split; [exact Hr|].
  split; [|split].
  - destruct (strip (argument_buffer c)) as [|ch t]; cbn; [discriminate|].
    rewrite Hh. discriminate.
  - destruct (rev (strip (argument_buffer c))) as [|ch t]; cbn;
      [discriminate|]. rewrite Ht. discriminate.
  - rewrite process_result_pending by exact Hp.
    unfold reserialized. rewrite Hrej. reflexivity.
Qed.

(** X3. A pending call whose buffer holds nothing but blanks, as when no
    argument text was streamed, is shown with empty parentheses when
    json.loads rejects the empty text. *)
Theorem X3_blank_buffer_is_shown_empty
        (c : Collectors) (result : str) (e : Exception) :
  truthy (current_function_name c) = true ->
  forallb isspace (argument_buffer c) = true ->
  json_loads [] = Raise e ->
  process_item c (FunctionResultContent result)
  = Ok {| full_response := full_response c;
          function_calls :=
            function_calls c
            ++ [lit "Calling function: " ++ fmt_opt (current_function_name c)
                ++ lit "()";
                result_line result];
          current_function_name := None;
          argument_buffer := [] |}.
Proof.
  intros Hp Hb Hrej.
  rewrite process_result_pending by exact Hp.
  unfold reserialized. rewrite (strip_blank _ Hb), Hrej. reflexivity.
Qed.

(** ** The shape of the collected lines *)

Lemma last_named_app (name : option str) (xs ys : list Item) :
  last_named name (xs ++ ys) = last_named (last_named name xs) ys.
Proof.
  revert name. induction xs as [|x xs IH]; intros name; [reflexivity|].
  destruct x; cbn [app last_named]; apply IH.
Qed.

(** The pending name is the last name given since the last reconstructed
    call. *)
Lemma process_items_named (c : Collectors) (seen items : list Item) :
  current_function_name c = last_named None seen ->
  exists c', process_items c items = Ok c'
    /\ current_function_name c'
       = last_named None
           (since_last_call (truthy (current_function_name c)) seen items).
Proof.
  revert c seen. induction items as [|x xs IH]; intros c seen Hn;
    cbn [process_items since_last_call].
  - exists c. split; [reflexivity|exact Hn].
  - next_item c x.
    + match goal with |- context [process_items ?c1 xs] =>
        destruct (IH c1 (seen ++ [FunctionCallContent fn a]))
          as (c' & H1 & H2) end.
      { cbn [current_function_name]. rewrite last_named_app, <- Hn.
        reflexivity. }
      cbn [current_function_name] in H2. rewrite truthy_update in H2.
      exists c'. split; assumption.
    + match goal with |- context [process_items ?c1 xs] =>
        destruct (IH c1 []) as (c' & H1 & H2) end.
      { reflexivity. }
      exists c'. split; assumption.
    + match goal with |- context [process_items ?c1 xs] =>
        destruct (IH c1 (seen ++ [FunctionResultContent r]))
          as (c' & H1 & H2) end.
      { cbn [current_function_name]. rewrite last_named_app, <- Hn.
        reflexivity. }
      cbn [current_function_name] in H2. rewrite Hp in H2.
      exists c'. split; assumption.
    + match goal with |- context [process_items ?c1 xs] =>
        destruct (IH c1 (seen ++ [StreamingTextContent t]))
          as (c' & H1 & H2) end.
      { cbn [current_function_name]. rewrite last_named_app, <- Hn.
        reflexivity. }
      exists c'. split; assumption.
    + destruct (IH c (seen ++ [OtherContent])) as (c' & H1 & H2).
      { rewrite last_named_app, <- Hn. reflexivity. }
      exists c'. split; assumption.
Qed.

(** X4. The lines a turn collects come in groups, one per function
    result and in the order of the results: the result line, which is a
    line break, 'Function Result:', two line breaks and the result text,
    preceded by at most one calling line, 'Calling function: name(args)',
    whose name is never empty.  So no result is lost, no calling line
    stands without its result, and no line is ever taken back. *)
Theorem X4_lines_are_grouped_by_result
        (c : Collectors) (items : list Item) :
  exists c' groups,
    process_items c items = Ok c'
    /\ function_calls c' = function_calls c ++ flat_map group_lines groups
    /\ List.map snd groups = results_of items
    /\ Forall (fun g => forall name args,
                         fst g = Some (name, args) -> name <> [])
              groups
    /\ (forall result,
        group_lines (None, result)
        = [ [10%N] ++ lit "Function Result:" ++ [10%N; 10%N] ++ result ])
    /\ (forall name args result,
        group_lines (Some (name, args), result)
        = [ lit "Calling function: " ++ name ++ lit "(" ++ args ++ lit ")";
            [10%N] ++ lit "Function Result:" ++ [10%N; 10%N] ++ result ]).
Proof.
  destruct (process_items_groups c items) as (c' & groups & H1 & H2 & H3 & H4).
  exists c', groups.
  split; [exact H1|]. split; [exact H2|]. split; [exact H3|].
  split; [exact H4|]. split.
  - intros result. exact (proj1 (group_lines_text result)).
  - intros name args result. exact (proj2 (group_lines_text result) name args).
Qed.

(** X5. When two named calls are streamed before their results, as with
    parallel tool calls, the first name is overwritten: the first result
    is shown with a call of the second name whose arguments are both
    argument texts joined, and the second result is shown with no call. *)
Theorem X5_parallel_calls_are_merged
        (first second args1 args2 result1 result2 : str) :
  first <> [] ->
  second <> [] ->
  process_items fresh
    [ FunctionCallContent (Some first) (ArgsStr args1);
      FunctionCallContent (Some second) (ArgsStr args2);
      FunctionResultContent result1;
      FunctionResultContent result2 ]
  = Ok {| full_response := [];
          function_calls :=
            [ calling_line second (reserialized (strip (args1 ++ args2)));
              result_line result1;
              result_line result2 ];
          current_function_name := None;
          argument_buffer := [] |}.
Proof.
  intros H1 H2.
  destruct first as [|f1 first]; [contradiction|].
  destruct second as [|s1 second]; [contradiction|].
  cbn [process_items].
  rewrite process_call, bind_Ok. rewrite process_call, bind_Ok.
  cbn [truthy current_function_name argument_buffer full_response
       function_calls fresh].
  rewrite process_result_pending by reflexivity. rewrite bind_Ok.
  rewrite process_result_idle by reflexivity. reflexivity.
Qed.

(** X6. The name shown for a reconstructed call is the last non-empty
    function name streamed since the previous reconstructed call (or the
    start of the turn), whichever item carried it. *)
Theorem X6_call_shows_the_last_name
        (pre : list Item) (result : str) :
  pending_after false pre = true ->
  exists name c c',
    last_named None (since_last_call false [] pre) = Some name
    /\ name <> []
    /\ process_items fresh pre = Ok c
    /\ process_items fresh (pre ++ [FunctionResultContent result]) = Ok c'
    /\ function_calls c'
       = function_calls c
         ++ [calling_line name
               (reserialized
                  (strip (string_arguments (since_last_call false [] pre))));
             result_line result].
Proof.
  intros Hpend.
  destruct (process_items_named fresh [] pre eq_refl) as (c & Hc & Hn).
  destruct (process_items_since fresh [] pre eq_refl) as (c2 & Hc2 & Hb & Ht).
  rewrite Hc in Hc2. injection Hc2 as <-.
  cbn [fresh current_function_name truthy] in Hn, Hb, Ht.
  rewrite Hpend in Ht. destruct (truthy_fmt _ Ht) as [Hsome Hne].
  exists (fmt_opt (current_function_name c)), c. eexists.
  split; [rewrite <- Hn; exact Hsome|]. split; [exact Hne|].
  split; [exact Hc|]. split.
  { rewrite process_items_app, Hc, bind_Ok. cbn [process_items].
    rewrite process_result_pending by exact Ht. reflexivity. }
  cbn [function_calls]. rewrite Hb. reflexivity.
Qed.

(** X7. A turn whose stream holds no function result shows no
    function-calls section, whatever calls were streamed: a call that
    gets no result in its turn is never displayed.  The block is the
    user's message followed by the response. *)
Theorem X7_call_without_result_is_not_shown
        (nb : Notebook) (f : Frame) (user_input : str)
        (responses : list (AgentResponse Thread)) :
  existsb is_result (items_of responses) = false ->
  process_user_input_on nb user_input responses
  = Ok {| thread := last_thread (thread nb) responses;
          input_box_value := input_box_value nb;
          output_area :=
            output_area nb
            ++ [user_block user_input
                ++ response_block agent_name
                     (streamed_texts (items_of responses))];
          tasks := tasks nb |}
  /\ exists f',
      main_turn_on f user_input responses
      = Ok (f',
            user_block user_input
            ++ response_block (name_or_assistant (last_name None responses))
                              (streamed_texts (items_of responses))).
Proof.
  intros Hno.
  destruct (turn_collectors responses) as (c & Hc & Ht & Hn).
  rewrite Hno in Hn. split.
  - unfold process_user_input_on. rewrite stream_loop_items, Hc, !bind_Ok.
    cbn [fst snd]. unfold finish_html. rewrite Hn, Ht. reflexivity.
  - unfold main_turn_on. rewrite main_stream_items.
    cbn [main_begin m_collectors m_thread m_html_output m_agent_name].
    rewrite Hc, !bind_Ok. unfold main_end.
    cbn [m_collectors m_thread m_html_output m_agent_name].
    unfold finish_html. rewrite Hn, Ht. eexists. reflexivity.
Qed.

(** ** More about the event loop *)

Lemma collected_ok (rs : list (AgentResponse Thread)) :
  process_items fresh (items_of rs) = Ok (collected rs).
Proof.
  unfold collected.
  destruct (process_items_total fresh (items_of rs)) as [c H].
  rewrite H. reflexivity.
Qed.

Lemma stream_loop_fresh (t : option Thread) (rs : list (AgentResponse Thread)) :
  stream_loop t fresh rs = Ok (last_thread t rs, collected rs).
Proof. rewrite stream_loop_items, collected_ok. reflexivity. Qed.

Lemma process_user_input_on_eq (nb : Notebook) (user_input : str)
      (rs : list (AgentResponse Thread)) :
  process_user_input_on nb user_input rs
  = Ok {| thread := last_thread (thread nb) rs;
          input_box_value := input_box_value nb;
          output_area :=
            output_area nb
            ++ [finish_html (user_block user_input) (collected rs) agent_name];
          tasks := tasks nb |}.
Proof.
  unfold process_user_input_on. rewrite stream_loop_fresh. reflexivity.
Qed.

Lemma on_submit_taken (nb : Notebook) (v : str) :
  nonempty (strip v) = true ->
  on_submit v nb
  = {| thread := thread nb;
       input_box_value := [];
       output_area := output_area nb;
       tasks := tasks nb ++ [Created v] |}.
Proof. intros H. unfold on_submit. rewrite H. reflexivity. Qed.

(** A message submitted and answered with nothing else in between. *)
Lemma steps_one_turn (nb : Notebook) (user_input : str) :
  nonempty (strip user_input) = true ->
  steps nb
        {| thread :=
             last_thread (thread nb) (invoke_stream user_input (thread nb));
           input_box_value := [];
           output_area :=
             output_area nb
             ++ [finish_html (user_block user_input)
                   (collected (invoke_stream user_input (thread nb)))
                   agent_name];
           tasks := tasks nb |}.
Proof.
  intros Hu.
  pose proof (step_submit nb user_input) as Hsub.
  rewrite (@on_submit_taken nb user_input Hu) in Hsub.
  match type of Hsub with step _ ?nb1 =>
    destruct (@steps_task_alone nb1 (tasks nb) [] user_input eq_refl)
      as (nb2 & Hrun & Hsteps) end.
  unfold process_user_input in Hrun.
  rewrite process_user_input_on_eq in Hrun. injection Hrun as <-.
  unfold with_tasks in Hsteps.
  cbn [thread input_box_value output_area tasks] in Hsteps.
  rewrite app_nil_r in Hsteps.
  eapply steps_cons; [exact Hsub|exact Hsteps].
Qed.

Lemma step_output (nb nb' : Notebook) :
  step nb nb' -> exists more, output_area nb' = output_area nb ++ more.
Proof.
  intros Hstep.
  destruct Hstep as
    [ nb v
    | nb before u after Ht
    | nb before u h c r pending after c' Ht Hc'
    | nb before u h c r pending after e Ht He
    | nb before u h c after Ht ];
    cbn [output_area tasks with_tasks];
    try (exists []; rewrite app_nil_r; reflexivity).
  - exists []. rewrite app_nil_r. unfold on_submit.
    destruct (nonempty (strip v)); reflexivity.
  - eexists. reflexivity.
Qed.

(** X8. Whatever the event loop does, the output area only grows: what
    was displayed stays displayed, unchanged and in place, so the greeting
    stays first. *)
Theorem X8_output_area_only_grows (nb nb' : Notebook) :
  steps nb nb' ->
  (exists more, output_area nb' = output_area nb ++ more)
  /\ (nb = notebook_start ->
      exists blocks, output_area nb' = intro_html :: blocks).
Proof.
  intros Hrun.
  assert (Hgrow : exists more, output_area nb' = output_area nb ++ more).
  { induction Hrun as [nb|a b c Hab Hbc IH].
    - exists []. rewrite app_nil_r. reflexivity.
    - destruct (step_output Hab) as (m1 & H1).
      destruct IH as (m2 & H2).
      exists (m1 ++ m2). rewrite H2, H1, app_assoc. reflexivity. }
  split; [exact Hgrow|].
  intros ->. destruct Hgrow as (more & H). exists more. exact H.
Qed.

Lemma step_thread (nb nb' : Notebook) :
  step nb nb' ->
  notebook_ok nb ->
  (thread nb <> None -> thread nb' <> None)
  /\ (thread_ok (thread nb) -> thread_ok (thread nb')).
Proof.
  intros Hstep [Htasks _].
  destruct Hstep as
    [ nb v
    | nb before u after Ht
    | nb before u h c r pending after c' Ht Hc'
    | nb before u h c r pending after e Ht He
    | nb before u h c after Ht ];
    cbn [thread with_tasks];
    try (split; intros H; exact H).
  - unfold on_submit. destruct (nonempty (strip v)); cbn [thread];
      split; intros H; exact H.
  - split; [discriminate|]. intros _.
    rewrite Ht in Htasks. apply Forall_app in Htasks.
    destruct Htasks as [_ Hrest]. apply Forall_cons_iff in Hrest.
    destruct Hrest as [(_ & t0 & consumed & Hs & _) _].
    right. exists u, t0, r. split; [|reflexivity].
    rewrite Hs. apply in_or_app. right. left. reflexivity.
  - split; [discriminate|]. intros _.
    rewrite Ht in Htasks. apply Forall_app in Htasks.
    destruct Htasks as [_ Hrest]. apply Forall_cons_iff in Hrest.
    destruct Hrest as [(_ & t0 & consumed & Hs & _) _].
    right. exists u, t0, r. split; [|reflexivity].
    rewrite Hs. apply in_or_app. right. left. reflexivity.
Qed.

(** X9. In the interactive cell the conversation thread is never
    dropped and never made up: from the start of the cell on it is [None]
    until a response arrives and from then on always the thread of some
    response the agent streamed, whatever the interleaving of tasks. *)
Theorem X9_thread_comes_from_the_agent (nb nb' : Notebook) :
  steps notebook_start nb ->
  steps nb nb' ->
  thread_ok (thread nb)
  /\ thread_ok (thread nb')
  /\ (thread nb <> None -> thread nb' <> None).
Proof.
  assert (Hinv : forall a b, steps a b -> notebook_ok a ->
            (thread_ok (thread a) -> thread_ok (thread b))
            /\ (thread a <> None -> thread b <> None)).
  { induction 1 as [a|a b c Hab Hbc IH]; intros Hok.
    - split; intros H; exact H.
    - destruct (step_thread Hab Hok) as [Hkeep Hprov].
      destruct (IH (step_ok Hab Hok)) as [IHprov IHkeep].
      split; intros H; [apply IHprov, Hprov, H|apply IHkeep, Hkeep, H]. }
  intros H0 H1.
  destruct (Hinv _ _ H0 notebook_start_ok) as [Hp0 _].
  assert (Hnb : thread_ok (thread nb)) by (apply Hp0; left; reflexivity).
  destruct (Hinv _ _ H1 (steps_ok H0 notebook_start_ok)) as [Hp1 Hk1].
  split; [exact Hnb|]. split; [apply Hp1; exact Hnb|exact Hk1].
Qed.


(** ** Whole sessions *)

Lemma main_turn_on_eq (f : Frame) (user_input : str)
      (rs : list (AgentResponse Thread)) :
  main_turn_on f user_input rs
  = Ok (main_end {| m_thread := last_thread (m_thread f) rs;
                    m_html_output := user_block user_input;
                    m_agent_name := last_name None rs;
                    m_collectors := collected rs |}).
Proof.
  unfold main_turn_on. rewrite main_stream_items.
  cbn [main_begin m_collectors m_thread m_html_output m_agent_name].
  rewrite collected_ok. reflexivity.
Qed.

Lemma main_loop_blocks (inputs : list str) :
  forall f displayed,
  exists f',
    main_loop f displayed inputs
    = Ok (f', displayed ++ batch_blocks (m_thread f) inputs)
    /\ m_thread f' = thread_after (m_thread f) inputs.
Proof.
  induction inputs as [|u us IH]; intros f displayed;
    cbn [main_loop batch_blocks thread_after].
  - exists f. rewrite app_nil_r. split; reflexivity.
  - unfold main_turn. rewrite main_turn_on_eq, bind_Ok.
    unfold main_end.
    cbn [fst snd m_collectors m_thread m_html_output m_agent_name].
    match goal with |- context [main_loop ?f1 ?d us] =>
      destruct (IH f1 d) as (f' & H1 & H2) end.
    cbn [m_thread] in H1, H2.
    exists f'. split; [|exact H2].
    rewrite H1, <- app_assoc. reflexivity.
Qed.

Lemma batch_blocks_length (inputs : list str) :
  forall t, List.length (batch_blocks t inputs) = List.length inputs.
Proof.
  induction inputs as [|u us IH]; intros t; cbn [batch_blocks List.length].
  - reflexivity.
  - rewrite IH. reflexivity.
Qed.

(** X11. The batch cell is a chain of turns linked by the thread alone:
    it calls the agent on no thread for the first input and, for each
    later one, on the thread the turn before left, and displays, in
    order, one block per input built from that turn's stream only. *)
Theorem X11_main_chains_turns_by_thread (inputs : list str) :
  exists f,
    main inputs = Ok (f, batch_blocks None inputs)
    /\ m_thread f = thread_after None inputs
    /\ List.length (batch_blocks None inputs) = List.length inputs.
Proof.
  unfold main.
  destruct (main_loop_blocks inputs main_entry []) as (f & H1 & H2).
  exists f. split; [exact H1|]. split; [exact H2|].
  apply batch_blocks_length.
Qed.

Lemma steps_session (inputs : list str) (nb : Notebook) :
  Forall (fun user_input => nonempty (strip user_input) = true) inputs ->
  exists nb',
    steps nb nb'
    /\ thread nb' = thread_after (thread nb) inputs
    /\ output_area nb' = output_area nb ++ chat_blocks (thread nb) inputs
    /\ tasks nb' = tasks nb.
Proof.
  revert nb. induction inputs as [|u us IH]; intros nb Hall;
    cbn [chat_blocks thread_after].
  - exists nb. rewrite app_nil_r. repeat split. apply steps_refl.
  - apply Forall_cons_iff in Hall. destruct Hall as [Hu Hus].
    pose proof (step_submit nb u) as Hsub.
    rewrite (@on_submit_taken nb u Hu) in Hsub.
    match type of Hsub with step _ ?nb1 =>
      destruct (@steps_task_alone nb1 (tasks nb) [] u eq_refl)
        as (nb2 & Hrun & Hsteps) end.
    unfold process_user_input in Hrun.
    rewrite process_user_input_on_eq in Hrun. injection Hrun as <-.
    unfold with_tasks in Hsteps.
    cbn [thread input_box_value output_area tasks] in Hsteps.
    rewrite app_nil_r in Hsteps.
    match type of Hsteps with steps _ ?mid =>
      destruct (IH mid Hus) as (nb' & H1 & H2 & H3 & H4) end.
    cbn [thread output_area tasks] in H2, H3, H4.
    exists nb'. split.
    { eapply steps_cons; [exact Hsub|]. exact (steps_trans Hsteps H1). }
    split; [exact H2|]. split; [|exact H4].
    rewrite H3, <- app_assoc. reflexivity.
Qed.

(** X12. Used one message at a time, each sent once the answer to the
    one before is displayed, the interactive cell shows one block per
    message in the order sent, each turn being asked on the thread the
    turn before left; tasks that were already pending are not touched. *)
Theorem X12_one_at_a_time_session (inputs : list str) (nb : Notebook) :
  Forall (fun user_input => nonempty (strip user_input) = true) inputs ->
  exists nb',
    steps nb nb'
    /\ thread nb' = thread_after (thread nb) inputs
    /\ output_area nb' = output_area nb ++ chat_blocks (thread nb) inputs
    /\ tasks nb' = tasks nb.
Proof. apply steps_session. Qed.

(** X13. Two messages sent in a row can be answered in the reverse
    order: when the second stream ends first, its block is displayed
    before the block of the first message.  Both turns were asked on the
    thread found at the first submission, and the thread left at the end
    is that of the turn that finished last. *)
Theorem X13_answers_can_come_out_of_order
        (nb : Notebook) (first second : str) :
  nonempty (strip first) = true ->
  nonempty (strip second) = true ->
  steps nb
        {| thread :=
             last_thread
               (last_thread (thread nb) (invoke_stream second (thread nb)))
               (invoke_stream first (thread nb));
           input_box_value := [];
           output_area :=
             output_area nb
             ++ [ finish_html (user_block second)
                    (collected (invoke_stream second (thread nb))) agent_name;
                  finish_html (user_block first)
                    (collected (invoke_stream first (thread nb))) agent_name ];
           tasks := tasks nb |}.
Proof.
  intros H1 H2.
  eapply steps_cons; [apply (step_submit nb first)|].
  rewrite (@on_submit_taken nb first H1).
  eapply steps_cons; [apply step_submit with (change_value := second)|].
  rewrite on_submit_taken by exact H2.
  cbn [thread input_box_value output_area tasks].
  eapply steps_cons.
  { apply step_start with (before := tasks nb) (user_input := first)
                          (after := [Created second]).
    cbn [tasks]. rewrite <- app_assoc. reflexivity. }
  unfold with_tasks. cbn [thread input_box_value output_area tasks].
  eapply steps_cons.
  { apply step_start
      with (before := tasks nb
                      ++ [Streaming first (user_block first) fresh
                                    (invoke_stream first (thread nb))])
           (user_input := second) (after := []).
    cbn [tasks]. rewrite <- app_assoc. reflexivity. }
  unfold with_tasks. cbn [thread input_box_value output_area tasks].
  match goal with |- steps ?a _ =>
    destruct (@steps_streaming (invoke_stream second (thread nb)) a
                (tasks nb
                 ++ [Streaming first (user_block first) fresh
                               (invoke_stream first (thread nb))])
                second (user_block second) fresh [] eq_refl)
      as (c2 & Hl2 & Hrun2) end.
  cbn [thread input_box_value output_area] in Hl2, Hrun2.
  rewrite stream_loop_fresh in Hl2. injection Hl2 as <-.
  rewrite app_nil_r in Hrun2.
  eapply steps_trans; [exact Hrun2|].
  match goal with |- steps ?a _ =>
    destruct (@steps_streaming (invoke_stream first (thread nb)) a
                (tasks nb) first (user_block first) fresh [] eq_refl)
      as (c1 & Hl1 & Hrun1) end.
  cbn [thread input_box_value output_area] in Hl1, Hrun1.
  rewrite stream_loop_fresh in Hl1. injection Hl1 as <-.
  rewrite app_nil_r, <- app_assoc in Hrun1. exact Hrun1.
Qed.

Lemma blocks_agree (inputs : list str) :
  (forall user_input t,
      name_or_assistant (last_name None (invoke_stream user_input t))
      = agent_name) ->
  forall t, batch_blocks t inputs = chat_blocks t inputs.
Proof.
  intros Hname. induction inputs as [|u us IH]; intros t;
    cbn [batch_blocks chat_blocks]; [reflexivity|].
  rewrite Hname, IH. reflexivity.
Qed.

(** X14. The two cells render alike: if in every stream the name of the
    last response (or 'Assistant' when it has none or the stream is empty)
    is the agent's name, the batch cell displays for a list of inputs
    exactly the blocks the interactive cell shows for the same messages
    sent one at a time from its start, after the greeting. *)
Theorem X14_batch_and_chat_show_the_same (inputs : list str) :
  (forall user_input t,
      name_or_assistant (last_name None (invoke_stream user_input t))
      = agent_name) ->
  Forall (fun user_input => nonempty (strip user_input) = true) inputs ->
  exists f nb blocks,
    main inputs = Ok (f, blocks)
    /\ steps notebook_start nb
    /\ output_area nb = intro_html :: blocks
    /\ thread nb = m_thread f.
Proof.
  intros Hname Hall.
  destruct (main_loop_blocks inputs main_entry []) as (f & Hmain & Hthread).
  destruct (steps_session notebook_start Hall)
    as (nb & Hsteps & Ht & Hout & _).
  exists f, nb, (batch_blocks None inputs).
  split; [exact Hmain|]. split; [exact Hsteps|]. split.
  - rewrite Hout. cbn [notebook_start output_area thread app].
    rewrite (blocks_agree inputs Hname). reflexivity.
  - rewrite Ht, Hthread. reflexivity.
Qed.

End Chat.

(** ** The model on the small agent *)

Example toy_turn_collects :
  process_items toy_loads toy_dumps fresh (items_of toy_stream)
  = Ok {| full_response := [lit "Paris is "; lit "available."];
          function_calls :=
            [ lit "Calling function: get_availability({})";
              result_line (lit "Paris - Available") ];
          current_function_name := None;
          argument_buffer := [] |}.
Proof. vm_compute. reflexivity. Qed.

Example toy_main_two_turns :
  exists f,
    main toy_loads toy_dumps toy_agent [lit "Is Paris available?"; lit "Thanks"]
    = Ok (f,
          [ user_block (lit "Is Paris available?")
            ++ calls_block [ lit "Calling function: get_availability({})";
                             result_line (lit "Paris - Available") ]
            ++ response_block (lit "TravelAgent")
                              [lit "Paris is available."];
            user_block (lit "Thanks")
            ++ response_block (lit "Assistant") [lit "Thanks"] ])
    /\ m_thread f = Some 3.
Proof. eexists. split; vm_compute; reflexivity. Qed.

Example toy_main_cell_inputs :
  exists f displayed,
    main toy_loads toy_dumps toy_agent (user_inputs) = Ok (f, displayed)
    /\ List.length displayed = 3
    /\ m_thread f = Some 4.
Proof. eexists. eexists. split; [vm_compute; reflexivity|]. split; reflexivity. Qed.

Example lit_example :
  lit "<hr>" = [60; 104; 114; 62]%N /\ chr10 = [10%N] /\ lit "" = [].
Proof. repeat split. Qed.

Example strip_examples :
  strip (lit "  {destination: Par ") = lit "{destination: Par"
  /\ strip [9; 10; 160; 8195; 12288]%N = []
  /\ strip (lit "a b") = lit "a b".
Proof. repeat split. Qed.

(** ** The theorems with a hypothesis, at a concrete input *)

Lemma C1_witness :
  truthy (current_function_name toy_pending) = true
  /\ toy_loads (strip (argument_buffer toy_pending))
     = Raise (JSONDecodeError (lit "Expecting property name"))
  /\ process_item toy_loads toy_dumps toy_pending
                  (FunctionResultContent (lit "Paris - Available"))
     = Ok {| full_response := [];
             function_calls :=
               [ lit "Calling function: get_availability({destination: Par)";
                 result_line (lit "Paris - Available") ];
             current_function_name := None;
             argument_buffer := [] |}.
Proof.
  split; [reflexivity|]. split; [reflexivity|].
  destruct (C1_rejected_json_is_shown_raw
              toy_loads toy_dumps None toy_agent toy_pending
              (lit "Paris - Available") eq_refl)
    as (shown & Hitem & _ & Hraw & _).
  rewrite Hitem. destruct (Hraw _ eq_refl) as [_ ->]. reflexivity.
Defined.

Lemma C2_witness :
  items_of toy_stream
  = toy_call ++ FunctionResultContent (lit "Paris - Available") :: toy_answer
  /\ pending_after false toy_call = true
  /\ exists final later,
      stream_loop toy_loads toy_dumps None fresh toy_stream
      = Ok (Some 2, final)
      /\ function_calls final
         = [ calling_line (lit "get_availability")
                          (reserialized toy_loads toy_dumps (lit "{ }"));
             result_line (lit "Paris - Available") ] ++ later.
Proof.
  split; [reflexivity|]. split; [reflexivity|].
  destruct (C2_arguments_are_the_chunks_since_last_call
              toy_loads toy_dumps None toy_stream toy_call toy_answer
              (lit "Paris - Available") eq_refl eq_refl)
    as (name & c & c' & final & later
        & Hc & Hname & _ & _ & _ & _ & Hloop & Hcalls & _).
  exists final, later. split; [exact Hloop|].
  vm_compute in Hc. injection Hc as <-.
  cbn [current_function_name] in Hname. injection Hname as <-.
  exact Hcalls.
Defined.

Lemma C7_witness :
  nonempty (strip (lit " Is Paris available? ")) = true
  /\ on_submit (lit " Is Paris available? ") (notebook_start nat None)
     = {| thread := None;
          input_box_value := [];
          output_area := [intro_html None];
          tasks := [Created nat (lit " Is Paris available? ")] |}.
Proof.
  split; [reflexivity|].
  exact (proj1 (C7_one_task_per_submission
                  toy_loads toy_dumps None toy_agent
                  (notebook_start nat None)
                  (lit " Is Paris available? ") eq_refl)).
Defined.

Lemma C9_witness :
  truthy (current_function_name toy_idle) = false
  /\ quiet false toy_call = true
  /\ pending_after false toy_call = true
  /\ exists c',
      process_items toy_loads toy_dumps toy_idle
        (FunctionResultContent (lit "stray")
         :: toy_call ++ [FunctionResultContent (lit "Paris - Available")])
      = Ok c'
      /\ function_calls c'
         = [ [10%N] ++ lit "Function Result:" ++ [10%N; 10%N] ++ lit "stray";
             lit "Calling function: get_availability({ { })";
             [10%N] ++ lit "Function Result:" ++ [10%N; 10%N]
             ++ lit "Paris - Available" ].
Proof.
  split; [reflexivity|]. split; [reflexivity|]. split; [reflexivity|].
  destruct (C9_unpaired_result_keeps_buffer
              toy_loads toy_dumps toy_idle (lit "stray") toy_call
              (lit "Paris - Available") eq_refl eq_refl eq_refl)
    as (_ & _ & _ & name & c1 & c' & Hc1 & Hname & Hrun & Hcalls & _).
  exists c'. split; [exact Hrun|].
  vm_compute in Hc1. injection Hc1 as <-.
  cbn [current_function_name] in Hname. injection Hname as <-.
  rewrite Hcalls. reflexivity.
Defined.

Lemma C10_witness :
  strip [32; 9; 160]%N = []
  /\ on_submit [32; 9; 160]%N
               {| thread := Some 2;
                  input_box_value := [32; 9; 160]%N;
                  output_area := [intro_html None];
                  tasks := [Created nat (lit "Is Paris available?")] |}
     = {| thread := Some 2;
          input_box_value := [32; 9; 160]%N;
          output_area := [intro_html None];
          tasks := [Created nat (lit "Is Paris available?")] |}.
Proof.
  split; [reflexivity|].
  exact (proj1 (C10_blank_submission_is_ignored
                  {| thread := Some 2;
                     input_box_value := [32; 9; 160]%N;
                     output_area := [intro_html None];
                     tasks := [Created nat (lit "Is Paris available?")] |}
                  [32; 9; 160]%N eq_refl)).
Defined.

Lemma X2_witness :
  truthy (current_function_name toy_pending) = true
  /\ toy_loads (strip (argument_buffer toy_pending))
     = Raise (JSONDecodeError (lit "Expecting property name"))
  /\ exists before shown after,
      argument_buffer toy_pending = before ++ shown ++ after
      /\ forallb isspace before = true
      /\ forallb isspace after = true
      /\ hd_error (List.map isspace shown) <> Some true
      /\ hd_error (List.map isspace (rev shown)) <> Some true
      /\ process_item toy_loads toy_dumps toy_pending
                      (FunctionResultContent (lit "Paris - Available"))
         = Ok {| full_response := full_response toy_pending;
                 function_calls :=
                   function_calls toy_pending
                   ++ [calling_line
                         (fmt_opt (current_function_name toy_pending)) shown;
                       result_line (lit "Paris - Available")];
                 current_function_name := None;
                 argument_buffer := [] |}.
Proof.
  split; [reflexivity|]. split; [reflexivity|].
  exact (X2_raw_arguments_are_the_trimmed_buffer
           toy_loads toy_dumps toy_pending (lit "Paris - Available")
           eq_refl eq_refl).
Defined.

Lemma X3_witness :
  truthy (current_function_name toy_blank) = true
  /\ forallb isspace (argument_buffer toy_blank) = true
  /\ toy_loads [] = Raise (JSONDecodeError (lit "Expecting value"))
  /\ process_item toy_loads toy_dumps toy_blank
                  (FunctionResultContent (lit "Barcelona, Spain"))
     = Ok {| full_response := [];
             function_calls :=
               [ lit "Calling function: get_destinations()";
                 result_line (lit "Barcelona, Spain") ];
             current_function_name := None;
             argument_buffer := [] |}.
Proof.
  split; [reflexivity|]. split; [reflexivity|]. split; [reflexivity|].
  exact (X3_blank_buffer_is_shown_empty
           toy_loads toy_dumps toy_blank (lit "Barcelona, Spain")
           eq_refl eq_refl eq_refl).
Defined.

Lemma X5_witness :
  lit "get_destinations" <> []
  /\ lit "get_availability" <> []
  /\ process_items toy_loads toy_dumps fresh
       [ FunctionCallContent (Some (lit "get_destinations"))
                             (ArgsStr (lit "{}"));
         FunctionCallContent (Some (lit "get_availability"))
                             (ArgsStr (lit "{ }"));
         FunctionResultContent (lit "Barcelona, Spain");
         FunctionResultContent (lit "Paris - Available") ]
     = Ok {| full_response := [];
             function_calls :=
               [ lit "Calling function: get_availability({}{ })";
                 result_line (lit "Barcelona, Spain");
                 result_line (lit "Paris - Available") ];
             current_function_name := None;
             argument_buffer := [] |}.
Proof.
  assert (H1 : lit "get_destinations" <> []) by discriminate.
  assert (H2 : lit "get_availability" <> []) by discriminate.
  split; [exact H1|]. split; [exact H2|].
  exact (X5_parallel_calls_are_merged
           toy_loads toy_dumps (lit "{}") (lit "{ }")
           (lit "Barcelona, Spain") (lit "Paris - Available") H1 H2).
Defined.

Lemma X6_witness :
  pending_after false toy_two_names = true
  /\ exists c',
      process_items toy_loads toy_dumps fresh
        (toy_two_names ++ [FunctionResultContent (lit "Paris - Available")])
      = Ok c'
      /\ function_calls c'
         = [ lit "Calling function: get_availability({})";
             result_line (lit "Paris - Available") ].
Proof.
  split; [reflexivity|].
  destruct (X6_call_shows_the_last_name
              toy_loads toy_dumps toy_two_names (lit "Paris - Available")
              eq_refl)
    as (name & c & c' & Hname & _ & Hc & Hrun & Hcalls).
  exists c'. split; [exact Hrun|].
  vm_compute in Hname. injection Hname as <-.
  vm_compute in Hc. injection Hc as <-.
  rewrite Hcalls. reflexivity.
Defined.

Lemma X7_witness :
  existsb is_result (items_of toy_unanswered) = false
  /\ process_user_input_on toy_loads toy_dumps None
       (notebook_start nat None) (lit "Is Paris available?") toy_unanswered
     = Ok {| thread := Some 7;
             input_box_value := [];
             output_area :=
               [ intro_html None;
                 user_block (lit "Is Paris available?")
                 ++ response_block (lit "Assistant")
                                   [lit "Paris is "; lit "available."] ];
             tasks := [] |}.
Proof.
  split; [reflexivity|].
  exact (proj1 (X7_call_without_result_is_not_shown
                  toy_loads toy_dumps None (notebook_start nat None)
                  (main_entry nat) (lit "Is Paris available?")
                  toy_unanswered eq_refl)).
Defined.

Lemma X8_witness :
  steps toy_loads toy_dumps None toy_agent
        (notebook_start nat None)
        {| thread := Some 2;
           input_box_value := [];
           output_area :=
             [ intro_html None;
               finish_html (user_block (lit "Is Paris available?"))
                 (collected toy_loads toy_dumps toy_stream)
                 (lit "Assistant") ];
           tasks := [] |}
  /\ (exists more,
        [ intro_html None;
          finish_html (user_block (lit "Is Paris available?"))
            (collected toy_loads toy_dumps toy_stream)
            (lit "Assistant") ]
        = [intro_html None] ++ more)
  /\ finish_html (user_block (lit "Is Paris available?"))
       (collected toy_loads toy_dumps toy_stream) (lit "Assistant")
     <> [].
Proof.
  assert (H : steps toy_loads toy_dumps None toy_agent
                (notebook_start nat None)
                {| thread := Some 2;
                   input_box_value := [];
                   output_area :=
                     [ intro_html None;
                       finish_html (user_block (lit "Is Paris available?"))
                         (collected toy_loads toy_dumps toy_stream)
                         (lit "Assistant") ];
                   tasks := [] |}).
  { exact (steps_one_turn toy_loads toy_dumps None toy_agent
             (notebook_start nat None) (lit "Is Paris available?") eq_refl). }
  split; [exact H|].
  split; [exact (proj1 (X8_output_area_only_grows H))|].
  vm_compute. discriminate.
Defined.

Lemma X9_witness :
  steps toy_loads toy_dumps None toy_agent
        (notebook_start nat None)
        {| thread := Some 2;
           input_box_value := [];
           output_area :=
             [ intro_html None;
               finish_html (user_block (lit "Is Paris available?"))
                 (collected toy_loads toy_dumps toy_stream)
                 (lit "Assistant") ];
           tasks := [] |}
  /\ steps toy_loads toy_dumps None toy_agent
        {| thread := Some 2;
           input_box_value := [];
           output_area :=
             [ intro_html None;
               finish_html (user_block (lit "Is Paris available?"))
                 (collected toy_loads toy_dumps toy_stream)
                 (lit "Assistant") ];
           tasks := [] |}
        {| thread := Some 3;
           input_box_value := [];
           output_area :=
             [ intro_html None;
               finish_html (user_block (lit "Is Paris available?"))
                 (collected toy_loads toy_dumps toy_stream)
                 (lit "Assistant");
               finish_html (user_block (lit "Thanks"))
                 (collected toy_loads toy_dumps
                            (toy_agent (lit "Thanks") (Some 2)))
                 (lit "Assistant") ];
           tasks := [] |}
  /\ thread_ok toy_agent (Some 2)
  /\ thread_ok toy_agent (Some 3)
  /\ (Some 2 <> None -> Some 3 <> @None nat).
Proof.
  assert (H0 : steps toy_loads toy_dumps None toy_agent
                 (notebook_start nat None)
                 {| thread := Some 2;
                    input_box_value := [];
                    output_area :=
                      [ intro_html None;
                        finish_html (user_block (lit "Is Paris available?"))
                          (collected toy_loads toy_dumps toy_stream)
                          (lit "Assistant") ];
                    tasks := [] |}).
  { exact (steps_one_turn toy_loads toy_dumps None toy_agent
             (notebook_start nat None) (lit "Is Paris available?") eq_refl). }
  assert (H1 : steps toy_loads toy_dumps None toy_agent
                 {| thread := Some 2;
                    input_box_value := [];
                    output_area :=
                      [ intro_html None;
                        finish_html (user_block (lit "Is Paris available?"))
                          (collected toy_loads toy_dumps toy_stream)
                          (lit "Assistant") ];
                    tasks := [] |}
                 {| thread := Some 3;
                    input_box_value := [];
                    output_area :=
                      [ intro_html None;
                        finish_html (user_block (lit "Is Paris available?"))
                          (collected toy_loads toy_dumps toy_stream)
                          (lit "Assistant");
                        finish_html (user_block (lit "Thanks"))
                          (collected toy_loads toy_dumps
                                     (toy_agent (lit "Thanks") (Some 2)))
                          (lit "Assistant") ];
                    tasks := [] |}).
  { exact (steps_one_turn toy_loads toy_dumps None toy_agent
             {| thread := Some 2;
                input_box_value := [];
                output_area :=
                  [ intro_html None;
                    finish_html (user_block (lit "Is Paris available?"))
                      (collected toy_loads toy_dumps toy_stream)
                      (lit "Assistant") ];
                tasks := [] |}
             (lit "Thanks") eq_refl). }
  split; [exact H0|]. split; [exact H1|].
  exact (X9_thread_comes_from_the_agent H0 H1).
Defined.

Lemma X12_witness :
  Forall (fun user_input => nonempty (strip user_input) = true)
         [lit "Is Paris available?"; lit "Thanks"]
  /\ exists nb',
      steps toy_loads toy_dumps None toy_agent (notebook_start nat None) nb'
      /\ thread nb' = Some 3
      /\ List.length (output_area nb') = 3
      /\ tasks nb' = [].
Proof.
  assert (H : Forall (fun user_input => nonempty (strip user_input) = true)
                     [lit "Is Paris available?"; lit "Thanks"]).
  { repeat constructor. }
  split; [exact H|].
  destruct (X12_one_at_a_time_session
              toy_loads toy_dumps None toy_agent (notebook_start nat None) H)
    as (nb' & Hs & Ht & Ho & Hk).
  exists nb'. split; [exact Hs|]. split; [exact Ht|].
  split; [rewrite Ho; reflexivity|exact Hk].
Defined.

Lemma X13_witness :
  nonempty (strip (lit "Is Paris available?")) = true
  /\ nonempty (strip (lit "Thanks")) = true
  /\ steps toy_loads toy_dumps None toy_agent
           (notebook_start nat None)
           {| thread := Some 2;
              input_box_value := [];
              output_area :=
                [ intro_html None;
                  finish_html (user_block (lit "Thanks"))
                    (collected toy_loads toy_dumps toy_stream)
                    (lit "Assistant");
                  finish_html (user_block (lit "Is Paris available?"))
                    (collected toy_loads toy_dumps toy_stream)
                    (lit "Assistant") ];
              tasks := [] |}.
Proof.
  split; [reflexivity|]. split; [reflexivity|].
  exact (X13_answers_can_come_out_of_order
           toy_loads toy_dumps None toy_agent (notebook_start nat None)
           (lit "Is Paris available?") (lit "Thanks") eq_refl eq_refl).
Defined.

Lemma X14_witness :
  (forall user_input t,
      name_or_assistant (last_name None (toy_echo user_input t))
      = agent_name (Some (lit "TravelAgent")))
  /\ Forall (fun user_input => nonempty (strip user_input) = true)
            [lit "Is Paris available?"; lit "Thanks"]
  /\ exists f nb blocks,
      main toy_loads toy_dumps toy_echo
           [lit "Is Paris available?"; lit "Thanks"]
      = Ok (f, blocks)
      /\ steps toy_loads toy_dumps (Some (lit "TravelAgent")) toy_echo
               (notebook_start nat (Some (lit "TravelAgent"))) nb
      /\ output_area nb = intro_html (Some (lit "TravelAgent")) :: blocks
      /\ thread nb = m_thread f.
Proof.
  assert (H1 : forall user_input t,
             name_or_assistant (last_name None (toy_echo user_input t))
             = agent_name (Some (lit "TravelAgent"))).
  { intros user_input t. reflexivity. }
  assert (H2 : Forall (fun user_input => nonempty (strip user_input) = true)
                      [lit "Is Paris available?"; lit "Thanks"]).
  { repeat constructor. }
  split; [exact H1|]. split; [exact H2|].
  exact (X14_batch_and_chat_show_the_same
           toy_loads toy_dumps (Some (lit "TravelAgent")) toy_echo H1 H2).
Defined.
